(** * js_exp: the parallelogram canvas demo (src/js/app.js)

    A shallow embedding of [Point], [Stage] and the event handlers of the
    application closure, and the properties of the geometry and of the
    placing / dragging state machine.

    Modelling decisions.
    - A JavaScript Number is a real number ([R]): arithmetic, [Math.sqrt],
      [Math.acos] and [Math.sin] are the functions of the Standard Library.
      IEEE-754 rounding, infinities and NaN are not represented.  In exact
      arithmetic the code never divides by zero, never leaves the domain of
      [acos] ([acos_argument_in_domain]) and never takes the square root of
      a negative number.
    - The program itself computes in binary64.  Where that changes the
      outcome in kind, the arithmetic of [_calculateArea] up to the call of
      [Math.acos] is run again in module [Binary64], on the Standard
      Library's specification of IEEE-754 ([SpecFloat], precision 53,
      maximal exponent 1024): for some collinear points the rounded quotient
      is greater than 1, where [Math.acos] is NaN, while the exact quotient
      is 1.  What is proved of [Stage._calculateArea_vars],
      [Stage._calculateArea_value] and [Stage._draw_r] as numbers is
      therefore proved of the exact formulas; the stored area of the
      program is their rounded value, or NaN.
    - [null] is [None]; a run that would throw a TypeError (a property read
      on [undefined] or [null]) or do arithmetic on [undefined] is [None] in
      the option monad.  The public methods of [Stage] and the handlers
      never do so ([addPoint_defined], [draw_defined], [dispatch_defined]).
    - The 2D context is the log of the operations issued on it, oldest
      first.
    - A Point object lives in the stage's array; the closure variable
      [point] is a reference to such an object, modelled as its position in
      the array ([InStage i]), or as the object itself once the array that
      held it has been dropped by a reset ([Detached p]).
    - The [View] only reads the stage and writes text into the page; it is
      left out. *)

From Stdlib Require Import Reals Lra String ZArith SpecFloat.
From stdpp Require Import base decidable option list.

Local Open Scope R_scope.

(** ** Numbers *)

#[global] Instance Rle_decision (a b : R) : Decision (a <= b) := Rle_dec a b.
#[global] Instance Rge_decision (a b : R) : Decision (a >= b) := Rge_dec a b.
#[global] Instance Req_decision : EqDecision R := Req_dec_T.

(** ToBoolean on a Number: only zero is falsy (there is no NaN here). *)
Definition ToBoolean (n : R) : bool := negb (bool_decide (n = 0)).

(** [a && b] on Numbers: [a] when [a] is falsy, else [b]. *)
Definition js_and (a b : R) : R := if ToBoolean a then b else a.

(** ToNumber on a Number-or-null: [null] converts to [0]. *)
Definition ToNumber (v : option R) : R := default 0 v.

(** ** Object literals [{x: .., y: ..}] *)

Module XY.
Record t := mk { x : R; y : R }.
End XY.

(** ** The canvas element and its 2D context *)

Inductive CanvasOp :=
| beginPath
| closePath
| stroke
| arc (x y radius startAngle endAngle : R) (anticlockwise : bool)
| moveTo (x y : R)
| lineTo (x y : R)
| set_strokeStyle (color : string)
| clearRect (x y w h : R).

Definition Context2D := list CanvasOp.

Module Canvas.
Record t := mk {
  width : R;
  height : R;
  offsetLeft : R;
  offsetTop : R;
  (** [canvas.offsetParent !== undefined] *)
  offsetParent_defined : bool;
  (** what [getContext('2d')] has received so far *)
  context2d : Context2D
}.
End Canvas.

(** ** Point *)

Module Point.
Record t := mk { x : R; y : R; radius : R }.

Definition new (x y : R) : t := {| x := x; y := y; radius := 5.5 |}.

Definition draw (this : t) (ctx : Context2D) : Context2D :=
  ctx ++ [ beginPath;
           arc (Point.x this) (Point.y this) (radius this) 0 (2 * PI) false;
           set_strokeStyle "#ff0000";
           stroke ].

Definition contains (this : t) (x y : R) : bool :=
  bool_decide (Point.x this - radius this <= x) &&
  bool_decide (Point.x this + radius this >= x) &&
  bool_decide (Point.y this - radius this <= y) &&
  bool_decide (Point.y this + radius this >= y).
End Point.

(** ** Stage *)

Module Stage.
Record t := mk {
  ctx : Context2D;
  width : R;
  height : R;
  points : list Point.t;
  center : option XY.t;
  area : option R
}.

Definition with_ctx (this : t) (c : Context2D) : t :=
  mk c (width this) (height this) (points this) (center this) (area this).
Definition with_points (this : t) (ps : list Point.t) : t :=
  mk (ctx this) (width this) (height this) ps (center this) (area this).
Definition with_center (this : t) (c : option XY.t) : t :=
  mk (ctx this) (width this) (height this) (points this) c (area this).
Definition with_area (this : t) (a : option R) : t :=
  mk (ctx this) (width this) (height this) (points this) (center this) a.

Definition new (canvas : Canvas.t) : t :=
  {| ctx := Canvas.context2d canvas;
     width := Canvas.width canvas;
     height := Canvas.height canvas;
     points := [];
     center := None;
     area := None |}.

Definition _clear (this : t) : t :=
  with_ctx this (ctx this ++ [clearRect 0 0 (width this) (height this)]).

(** The locals of [_calculateArea], declared by its one [var] statement. *)
Record AreaVars := mkAreaVars {
  x1 : R; x2 : R; y1 : R; y2 : R; d1 : R; d2 : R; a : R
}.

Definition _calculateArea_vars (p1 p2 p3 : Point.t) : AreaVars :=
  let x1 := Point.x p1 - Point.x p2 in
  let x2 := Point.x p3 - Point.x p2 in
  let y1 := Point.y p1 - Point.y p2 in
  let y2 := Point.y p3 - Point.y p2 in
  let d1 := sqrt (x1 * x1 + y1 * y1) in
  let d2 := sqrt (x2 * x2 + y2 * y2) in
  let a := if ToBoolean (js_and d1 d2)
           then acos ((x1 * x2 + y1 * y2) / (d1 * d2))
           else 0 in
  mkAreaVars x1 x2 y1 y2 d1 d2 a.

(** The value assigned to [this.area]. *)
Definition _calculateArea_value (v : AreaVars) : R :=
  d1 v * d2 v * sin (a v).

Definition _calculateArea (this : t) : option t :=
  p1 ← points this !! 0%nat;
  p2 ← points this !! 1%nat;
  p3 ← points this !! 2%nat;
  let v := _calculateArea_vars p1 p2 p3 in
  Some (with_area this (Some (_calculateArea_value v))).

(** The object literal assigned to [this.center]. *)
Definition _calculate_center (p1 p2 : Point.t) : XY.t :=
  {| XY.x := (Point.x p1 + Point.x p2) / 2;
     XY.y := (Point.y p1 + Point.y p2) / 2 |}.

Definition _calculate (this : t) : option t :=
  p1 ← points this !! 0%nat;
  p2 ← points this !! 2%nat;
  let this := with_center this (Some (_calculate_center p1 p2)) in
  _calculateArea this.

(** The fourth corner, the local [p4] of [_draw]. *)
Definition _draw_p4 (p1 p2 p3 : Point.t) : XY.t :=
  {| XY.x := Point.x p3 - (Point.x p2 - Point.x p1);
     XY.y := Point.y p1 + (Point.y p3 - Point.y p2) |}.

(** The radius of the circle, the local [r] of [_draw]. *)
Definition _draw_r (this : t) : R := sqrt (ToNumber (area this) / PI).

Definition _draw (this : t) : option t :=
  p1 ← points this !! 0%nat;
  p2 ← points this !! 1%nat;
  p3 ← points this !! 2%nat;
  let p4 := _draw_p4 p1 p2 p3 in
  let r := _draw_r this in
  c ← center this;
  Some (with_ctx this (ctx this ++
    [ beginPath;
      moveTo (Point.x p1) (Point.y p1);
      lineTo (Point.x p2) (Point.y p2);
      lineTo (Point.x p3) (Point.y p3);
      lineTo (XY.x p4) (XY.y p4);
      closePath;
      set_strokeStyle "#0000ff";
      stroke;
      beginPath;
      arc (XY.x c) (XY.y c) r 0 (2 * PI) false;
      set_strokeStyle "#00ff00";
      stroke ])).

Definition _check (this : t) : option t :=
  if decide (3%nat = length (points this))
  then this ← _calculate this; _draw this
  else Some this.

Definition addPoint (this : t) (point : Point.t) : option t :=
  let this := with_points this (points this ++ [point]) in
  let this := with_ctx this (Point.draw point (ctx this)) in
  _check this.

Definition draw (this : t) : option t :=
  let this := _clear this in
  let this := with_ctx this
    (foldl (λ c p, Point.draw p c) (ctx this) (points this)) in
  _check this.

Definition reset (this : t) : t :=
  let this := _clear this in
  let this := with_points this [] in
  let this := with_center this None in
  with_area this None.
End Stage.

(** ** The application closure *)

Record Event := mkEvent { pageX : R; pageY : R }.

Inductive EventType := click | mousedown | mouseup | mousemove.

Module App.
(** A reference to a Point object. *)
Inductive Ref :=
| InStage (i : nat)
| Detached (p : Point.t).

(** Which handlers are attached to the canvas. *)
Record Listeners := mkListeners {
  click__addPoint : bool;
  mousedown__startMove : bool;
  mouseup__stopMove : bool;
  mousemove__move : bool
}.

(** The variables of the closure: [canvas], [stage], [point], [dx], [dy]
    ([dx] and [dy] are [undefined], here [None], until the first drag). *)
Record t := mk {
  canvas : Canvas.t;
  stage : Stage.t;
  point : option Ref;
  dx : option R;
  dy : option R;
  listeners : Listeners
}.

Definition with_stage (app : t) (s : Stage.t) : t :=
  mk (canvas app) s (point app) (dx app) (dy app) (listeners app).
Definition with_listeners (app : t) (l : Listeners) : t :=
  mk (canvas app) (stage app) (point app) (dx app) (dy app) l.
Definition with_point (app : t) (p : option Ref) : t :=
  mk (canvas app) (stage app) p (dx app) (dy app) (listeners app).
Definition with_drag (app : t) (p : option Ref) (dx dy : option R) : t :=
  mk (canvas app) (stage app) p dx dy (listeners app).

Definition _getCoords (canvas : Canvas.t) (e : Event) : XY.t :=
  let x := pageX e in
  let y := pageY e in
  if Canvas.offsetParent_defined canvas
  then {| XY.x := x - Canvas.offsetLeft canvas;
          XY.y := y - Canvas.offsetTop canvas |}
  else {| XY.x := x; XY.y := y |}.

Definition _addPoint (app : t) (e : Event) : option t :=
  let coords := _getCoords (canvas app) e in
  let point := Point.new (XY.x coords) (XY.y coords) in
  stage ← Stage.addPoint (stage app) point;
  let app := with_stage app stage in
  if decide (3%nat = length (Stage.points stage))
  then Some (with_listeners app (mkListeners false true true true))
  else Some app.

(** The loop of [_startMove]; [n] is the loop variable plus one, so the
    iteration run at [S i] is the one with [i], and the loop ends at [0].
    There is no [break]: every iteration that hits assigns again. *)
Fixpoint _startMove_loop (points : list Point.t) (coords : XY.t) (n : nat)
    (vars : option Ref * option R * option R)
    : option (option Ref * option R * option R) :=
  match n with
  | O => Some vars
  | S i =>
      p ← points !! i;
      let vars :=
        if Point.contains p (XY.x coords) (XY.y coords)
        then (Some (InStage i),
              Some (XY.x coords - Point.x p),
              Some (XY.y coords - Point.y p))
        else vars in
      _startMove_loop points coords i vars
  end.

Definition _startMove (app : t) (e : Event) : option t :=
  let coords := _getCoords (canvas app) e in
  let points := Stage.points (stage app) in
  let length := length points in
  '(point, dx, dy) ← _startMove_loop points coords length
                       (point app, dx app, dy app);
  Some (with_drag app point dx dy).

Definition _stopMove (app : t) (e : Event) : option t :=
  Some (with_point app None).

Definition _move (app : t) (e : Event) : option t :=
  match point app with
  | None => Some app
  | Some r =>
      let coords := _getCoords (canvas app) e in
      dx ← dx app;
      dy ← dy app;
      match r with
      | InStage i =>
          p ← Stage.points (stage app) !! i;
          let p := Point.mk (XY.x coords - dx) (XY.y coords - dy)
                            (Point.radius p) in
          let stage := Stage.with_points (stage app)
                         (<[i := p]> (Stage.points (stage app))) in
          stage ← Stage.draw stage;
          Some (with_stage app stage)
      | Detached p =>
          let p := Point.mk (XY.x coords - dx) (XY.y coords - dy)
                            (Point.radius p) in
          stage ← Stage.draw (stage app);
          Some (with_stage (with_point app (Some (Detached p))) stage)
      end
  end.

(** [stage.reset()] drops the array; an object still held by [point]
    survives it, no longer part of the stage. *)
Definition _reset (app : t) : t :=
  let point :=
    match point app with
    | Some (InStage i) => Detached <$> Stage.points (stage app) !! i
    | r => r
    end in
  let app := with_point app point in
  let app := with_stage app (Stage.reset (stage app)) in
  with_listeners app (mkListeners true false false false).

Definition _init (canvas : Canvas.t) : t :=
  _reset (mk canvas (Stage.new canvas) None None None
             (mkListeners false false false false)).

(** The browser delivering an event on the canvas to the handler attached
    for its type, if any. *)
Definition dispatch (app : t) (ev : EventType * Event) : option t :=
  let '(type, e) := ev in
  match type with
  | click =>
      if click__addPoint (listeners app) then _addPoint app e else Some app
  | mousedown =>
      if mousedown__startMove (listeners app) then _startMove app e
      else Some app
  | mouseup =>
      if mouseup__stopMove (listeners app) then _stopMove app e else Some app
  | mousemove =>
      if mousemove__move (listeners app) then _move app e else Some app
  end.

(** Events are handled one after the other, in arrival order. *)
Fixpoint run (app : t) (evs : list (EventType * Event)) : option t :=
  match evs with
  | [] => Some app
  | ev :: evs => app ← dispatch app ev; run app evs
  end.
End App.

(** ** The page around the canvas *)

(** What reaches the application once the page has loaded: an event on the
    canvas, or a click on the reset button, to which [_init] attaches
    [_reset]. *)
Inductive Input :=
| OnCanvas (ev : EventType * Event)
| ResetButton.

Definition handle (app : App.t) (input : Input) : option App.t :=
  match input with
  | OnCanvas ev => App.dispatch app ev
  | ResetButton => Some (App._reset app)
  end.

Fixpoint handle_all (app : App.t) (inputs : list Input) : option App.t :=
  match inputs with
  | [] => Some app
  | input :: inputs => app ← handle app input; handle_all app inputs
  end.

(** ** The area computation in binary64 *)

Module Binary64.
(** A Number as the program has it: an IEEE-754 double. *)
Definition number := spec_float.
Definition prec : Z := 53.
Definition emax : Z := 1024.

Definition add : number -> number -> number := SFadd prec emax.
Definition sub : number -> number -> number := SFsub prec emax.
Definition mul : number -> number -> number := SFmul prec emax.
Definition div : number -> number -> number := SFdiv prec emax.
(** [Math.sqrt], correctly rounded. *)
Definition sqrt : number -> number := SFsqrt prec emax.
Definition ltb : number -> number -> bool := SFltb.

(** The double of an integer, as a pointer event delivers it. *)
Definition of_Z (n : Z) : number := binary_normalize prec emax n 0 false.

(** ToBoolean on a Number: zero of either sign and NaN are falsy. *)
Definition ToBoolean (n : number) : bool :=
  match n with
  | S754_zero _ | S754_nan => false
  | _ => true
  end.

(** [a && b] on Numbers. *)
Definition js_and (a b : number) : number := if ToBoolean a then b else a.

(** The [x] and [y] of a Point. *)
Record Point := mkPoint { x : number; y : number }.

(** The locals of [_calculateArea] up to the call of [Math.acos]: whether
    the call is made (the test [d1 && d2]) and the quotient it is made on.
    [Math.acos] and [Math.sin] themselves are left to the host. *)
Record AreaVars := mkAreaVars {
  x1 : number; x2 : number; y1 : number; y2 : number;
  d1 : number; d2 : number;
  calls_acos : bool;
  acos_argument : number
}.

Definition _calculateArea_vars (p1 p2 p3 : Point) : AreaVars :=
  let x1 := sub (x p1) (x p2) in
  let x2 := sub (x p3) (x p2) in
  let y1 := sub (y p1) (y p2) in
  let y2 := sub (y p3) (y p2) in
  let d1 := sqrt (add (mul x1 x1) (mul y1 y1)) in
  let d2 := sqrt (add (mul x2 x2) (mul y2 y2)) in
  mkAreaVars x1 x2 y1 y2 d1 d2
    (ToBoolean (js_and d1 d2))
    (div (add (mul x1 x2) (mul y1 y2)) (mul d1 d2)).

(** Where ECMAScript fixes [Math.acos] to be NaN: on NaN, on a number
    greater than 1 and on a number less than -1. *)
Definition acos_is_NaN (q : number) : bool :=
  match q with
  | S754_nan => true
  | _ => ltb (of_Z 1) q || ltb q (of_Z (-1))
  end.

(** The point a click at the canvas position [(px, py)] creates. *)
Definition clicked (px py : Z) : Point := mkPoint (of_Z px) (of_Z py).
End Binary64.

(** ** Vocabulary of the properties *)

(** The area [_calculateArea] stores for the points [p1], [p2], [p3] placed
    in this order (whatever else the stage holds). *)
Definition computeArea (this : Stage.t) (p1 p2 p3 : Point.t) : option R :=
  this ← Stage._calculateArea (Stage.with_points this [p1; p2; p3]);
  Stage.area this.

(** The position of a placed point. *)
Definition position (p : Point.t) : XY.t :=
  {| XY.x := Point.x p; XY.y := Point.y p |}.

(** The side from [a] to [b], as a vector. *)
Definition side (a b : XY.t) : XY.t :=
  {| XY.x := XY.x b - XY.x a; XY.y := XY.y b - XY.y a |}.

Definition side_length (u : XY.t) : R :=
  sqrt (XY.x u * XY.x u + XY.y u * XY.y u).

Definition cross_product (u v : XY.t) : R :=
  XY.x u * XY.y v - XY.y u * XY.x v.

Definition parallel (u v : XY.t) : Prop := cross_product u v = 0.

(** The event whose page coordinates put it at the canvas-local position
    [(x, y)]. *)
Definition page_event (canvas : Canvas.t) (x y : R) : Event :=
  if Canvas.offsetParent_defined canvas
  then mkEvent (x + Canvas.offsetLeft canvas) (y + Canvas.offsetTop canvas)
  else mkEvent x y.

Definition event_at (canvas : Canvas.t) (type : EventType) (x y : R)
    : EventType * Event :=
  (type, page_event canvas x y).

(** What the closure variables [point], [dx], [dy] hold after a pointer-down
    at [coords] that hits the point [p] at index [i]. *)
Definition grabbed (coords : XY.t) (i : nat) (p : Point.t)
    : option App.Ref * option R * option R :=
  (Some (App.InStage i),
   Some (XY.x coords - Point.x p),
   Some (XY.y coords - Point.y p)).

(** The first point of [points], with its index, that contains [coords]. *)
Definition first_hit (points : list Point.t) (coords : XY.t)
    : option (nat * Point.t) :=
  list_find (λ p, Point.contains p (XY.x coords) (XY.y coords) = true) points.

(** What the handlers rely on when something is held: [dx] and [dy] have
    been assigned, and a held point of the stage is at an index of its
    array. *)
Definition drag_ready (app : App.t) : Prop :=
  match App.point app with
  | None => True
  | Some r =>
      is_Some (App.dx app) /\ is_Some (App.dy app) /\
      match r with
      | App.InStage i => (i < length (Stage.points (App.stage app)))%nat
      | App.Detached _ => True
      end
  end.

(** The calls [_draw] makes for the points [p1], [p2], [p3]: the outline
    through the four corners, then the circle. *)
Definition shape_calls (p1 p2 p3 : Point.t) : list CanvasOp :=
  let p4 := Stage._draw_p4 p1 p2 p3 in
  let c := Stage._calculate_center p1 p3 in
  let area := Stage._calculateArea_value (Stage._calculateArea_vars p1 p2 p3) in
  [ beginPath;
    moveTo (Point.x p1) (Point.y p1);
    lineTo (Point.x p2) (Point.y p2);
    lineTo (Point.x p3) (Point.y p3);
    lineTo (XY.x p4) (XY.y p4);
    closePath;
    set_strokeStyle "#0000ff";
    stroke;
    beginPath;
    arc (XY.x c) (XY.y c) (sqrt (area / PI)) 0 (2 * PI) false;
    set_strokeStyle "#00ff00";
    stroke ].

(** The centre and the area that belong to a list of points: those of the
    parallelogram when there are exactly three, none otherwise. *)
Definition geometry_of (points : list Point.t) : option XY.t * option R :=
  match points with
  | [p1; p2; p3] =>
      (Some (Stage._calculate_center p1 p3),
       Some (Stage._calculateArea_value (Stage._calculateArea_vars p1 p2 p3)))
  | _ => (None, None)
  end.

(** The stage [_check] leaves. *)
Definition checked (this : Stage.t) : Stage.t :=
  match Stage.points this with
  | [p1; p2; p3] =>
      {| Stage.ctx := Stage.ctx this ++ shape_calls p1 p2 p3;
         Stage.width := Stage.width this;
         Stage.height := Stage.height this;
         Stage.points := [p1; p2; p3];
         Stage.center := fst (geometry_of [p1; p2; p3]);
         Stage.area := snd (geometry_of [p1; p2; p3]) |}
  | _ => this
  end.

(** The calls that draw the points of a list, in its order. *)
Definition point_calls (points : list Point.t) : list CanvasOp :=
  concat (map (λ p, Point.draw p []) points).

(** A point moved by the vector [(u, v)]. *)
Definition translate (u v : R) (p : Point.t) : Point.t :=
  {| Point.x := Point.x p + u;
     Point.y := Point.y p + v;
     Point.radius := Point.radius p |}.

(** The two sets of handlers [_reset] and [_addPoint] switch between. *)
Definition placing : App.Listeners := App.mkListeners true false false false.
Definition dragging : App.Listeners := App.mkListeners false true true true.

(** What holds of the application in every state it reaches. *)
Definition app_inv (app : App.t) : Prop :=
  (length (Stage.points (App.stage app)) ≤ 3)%nat /\
  App.listeners app =
    (if decide (length (Stage.points (App.stage app)) = 3%nat)
     then dragging else placing) /\
  (Stage.center (App.stage app), Stage.area (App.stage app)) =
    geometry_of (Stage.points (App.stage app)) /\
  drag_ready app.

(** A canvas of 500 by 300 pixels at the origin of the page, for the
    worked examples. *)
Definition canvas0 : Canvas.t :=
  {| Canvas.width := 500; Canvas.height := 300;
     Canvas.offsetLeft := 0; Canvas.offsetTop := 0;
     Canvas.offsetParent_defined := true;
     Canvas.context2d := [] |}.

(** The stage once the points (0,0), (10,0) and (10,10) have been placed,
    in this order, on a fresh stage whose context has received [log]. *)
Definition square_stage_on (log : Context2D) (canvas : Canvas.t) : Stage.t :=
  {| Stage.ctx := log ++
       [ beginPath; arc 0 0 5.5 0 (2 * PI) false;
         set_strokeStyle "#ff0000"; stroke;
         beginPath; arc 10 0 5.5 0 (2 * PI) false;
         set_strokeStyle "#ff0000"; stroke;
         beginPath; arc 10 10 5.5 0 (2 * PI) false;
         set_strokeStyle "#ff0000"; stroke;
         beginPath; moveTo 0 0; lineTo 10 0; lineTo 10 10; lineTo 0 10;
         closePath; set_strokeStyle "#0000ff"; stroke;
         beginPath; arc 5 5 (sqrt (100 / PI)) 0 (2 * PI) false;
         set_strokeStyle "#00ff00"; stroke ];
     Stage.width := Canvas.width canvas;
     Stage.height := Canvas.height canvas;
     Stage.points := [Point.new 0 0; Point.new 10 0; Point.new 10 10];
     Stage.center := Some {| XY.x := 5; XY.y := 5 |};
     Stage.area := Some 100 |}.

Definition square_stage (canvas : Canvas.t) : Stage.t :=
  square_stage_on (Canvas.context2d canvas) canvas.

(** The application once the page has loaded and the three points of the
    square have been clicked: the click handler is gone and the three
    drag handlers are attached. *)
Definition square_app (canvas : Canvas.t) : App.t :=
  {| App.canvas := canvas;
     App.stage :=
       square_stage_on
         (Canvas.context2d canvas ++
          [clearRect 0 0 (Canvas.width canvas) (Canvas.height canvas)])
         canvas;
     App.point := None;
     App.dx := None;
     App.dy := None;
     App.listeners := App.mkListeners false true true true |}.

(** The same application after its second point has been dragged from
    (10,0) to (20,0) with the pointer put down on the point itself. *)
Definition dragged_app (canvas : Canvas.t) : App.t :=
  {| App.canvas := canvas;
     App.stage :=
       {| Stage.ctx := Stage.ctx (App.stage (square_app canvas)) ++
            [ clearRect 0 0 (Canvas.width canvas) (Canvas.height canvas);
              beginPath; arc 0 0 5.5 0 (2 * PI) false;
              set_strokeStyle "#ff0000"; stroke;
              beginPath; arc 20 0 5.5 0 (2 * PI) false;
              set_strokeStyle "#ff0000"; stroke;
              beginPath; arc 10 10 5.5 0 (2 * PI) false;
              set_strokeStyle "#ff0000"; stroke;
              beginPath; moveTo 0 0; lineTo 20 0; lineTo 10 10;
              lineTo (-10) 10;
              closePath; set_strokeStyle "#0000ff"; stroke;
              beginPath; arc 5 5 (sqrt (200 / PI)) 0 (2 * PI) false;
              set_strokeStyle "#00ff00"; stroke ];
          Stage.width := Canvas.width canvas;
          Stage.height := Canvas.height canvas;
          Stage.points := [Point.new 0 0; Point.new 20 0; Point.new 10 10];
          Stage.center := Some {| XY.x := 5; XY.y := 5 |};
          Stage.area := Some 200 |};
     App.point := Some (App.InStage 1);
     App.dx := Some 0;
     App.dy := Some 0;
     App.listeners := App.mkListeners false true true true |}.

(** * Properties *)

(** ** Real-number facts behind the area formula *)

Section Vectors.
Variables u1 v1 u2 v2 : R.

Let n1 := sqrt (u1 * u1 + v1 * v1).
Let n2 := sqrt (u2 * u2 + v2 * v2).
Let dot := u1 * u2 + v1 * v2.
Let cross := u1 * v2 - v1 * u2.

Lemma norm_nonneg : 0 <= n1.
Proof. apply sqrt_pos. Qed.

Lemma norm_sqr : n1 * n1 = u1 * u1 + v1 * v1.
Proof. apply sqrt_sqrt. nra. Qed.

Lemma norm_zero : n1 = 0 -> u1 = 0 /\ v1 = 0.
Proof.
  intros H. pose proof norm_sqr as Hs. rewrite H in Hs. split; nra.
Qed.

Lemma norms_product_sqr :
  (n1 * n2) * (n1 * n2) = dot * dot + cross * cross.
Proof.
  assert (H1 : n1 * n1 = u1 * u1 + v1 * v1) by (apply sqrt_sqrt; nra).
  assert (H2 : n2 * n2 = u2 * u2 + v2 * v2) by (apply sqrt_sqrt; nra).
  replace (n1 * n2 * (n1 * n2)) with ((n1 * n1) * (n2 * n2)) by ring.
  rewrite H1, H2. unfold dot, cross. ring.
Qed.

(** Cauchy-Schwarz: the quotient handed to [Math.acos] is a cosine. *)
Lemma acos_argument_in_domain :
  n1 <> 0 -> n2 <> 0 -> -1 <= dot / (n1 * n2) <= 1.
Proof.
  intros Hn1 Hn2.
  assert (H1 : 0 <= n1) by apply sqrt_pos.
  assert (H2 : 0 <= n2) by apply sqrt_pos.
  assert (HP : 0 < n1 * n2) by nra.
  pose proof norms_product_sqr as Hsq.
  assert (Hd : - (n1 * n2) <= dot <= n1 * n2) by (split; nra).
  split.
  - apply Rmult_le_reg_r with (n1 * n2); [exact HP|].
    unfold Rdiv. rewrite Rmult_assoc, Rinv_l by lra. lra.
  - apply Rmult_le_reg_r with (n1 * n2); [exact HP|].
    unfold Rdiv. rewrite Rmult_assoc, Rinv_l by lra. lra.
Qed.

(** The product of the norms times the sine of the angle is the size of the
    cross product. *)
Lemma norms_sin_acos :
  n1 <> 0 -> n2 <> 0 ->
  n1 * n2 * sin (acos (dot / (n1 * n2))) = Rabs cross.
Proof.
  intros Hn1 Hn2.
  assert (H1 : 0 <= n1) by apply sqrt_pos.
  assert (H2 : 0 <= n2) by apply sqrt_pos.
  assert (HP : 0 < n1 * n2) by nra.
  rewrite sin_acos by (apply acos_argument_in_domain; assumption).
  replace (1 - (dot / (n1 * n2))²) with ((cross / (n1 * n2))²).
  - rewrite sqrt_Rsqr_abs. unfold Rdiv.
    rewrite Rabs_mult, (Rabs_pos_eq (/ (n1 * n2))).
    + field. lra.
    + left. apply Rinv_0_lt_compat. exact HP.
  - unfold Rsqr. pose proof norms_product_sqr as Hsq.
    apply Rmult_eq_reg_r with ((n1 * n2) * (n1 * n2)); [|nra].
    transitivity (cross * cross); [field; lra|].
    transitivity ((n1 * n2) * (n1 * n2) - dot * dot); [lra|field; lra].
Qed.

End Vectors.

(** ** Point *)

Lemma contains_true (p : Point.t) (x y : R) :
  Point.contains p x y = true <->
  Point.x p - Point.radius p <= x <= Point.x p + Point.radius p /\
  Point.y p - Point.radius p <= y <= Point.y p + Point.radius p.
Proof.
  unfold Point.contains.
  rewrite !andb_true_iff, !bool_decide_eq_true. lra.
Qed.

(** C3. [contains] answers true exactly on the closed axis-aligned square of
    half-width [radius] around the point: [|x - p.x| <= radius] and
    [|y - p.y| <= radius]; anywhere else it answers false. *)
Theorem contains_square (p : Point.t) (x y : R) :
  (Point.contains p x y = true <->
     Rabs (x - Point.x p) <= Point.radius p /\
     Rabs (y - Point.y p) <= Point.radius p) /\
  (Point.contains p x y = false <->
     Rabs (x - Point.x p) > Point.radius p \/
     Rabs (y - Point.y p) > Point.radius p).
Proof.
  assert (Hsq : ∀ c r q, Rabs (q - c) <= r <-> c - r <= q <= c + r).
  { intros c r q. unfold Rabs. destruct (Rcase_abs (q - c)); lra. }
  split.
  - rewrite contains_true, !Hsq. tauto.
  - rewrite <- not_true_iff_false, contains_true.
    pose proof (Hsq (Point.x p) (Point.radius p) x).
    pose proof (Hsq (Point.y p) (Point.radius p) y). lra.
Qed.

(** ** The area *)

Lemma ToBoolean_js_and (a b : R) :
  ToBoolean (js_and a b) = true <-> a <> 0 /\ b <> 0.
Proof.
  unfold js_and, ToBoolean.
  destruct (bool_decide_reflect (a = 0)) as [Ha|Ha]; simpl.
  - rewrite bool_decide_eq_true_2 by exact Ha. simpl.
    split; [discriminate | tauto].
  - destruct (bool_decide_reflect (b = 0)); simpl; split;
      try discriminate; try tauto.
Qed.

(** The stored area is the size of the cross product of the two sides that
    meet at the second point; this covers the branch where a side has no
    length. *)
Lemma calculateArea_value_cross (p1 p2 p3 : Point.t) :
  Stage._calculateArea_value (Stage._calculateArea_vars p1 p2 p3) =
  Rabs (cross_product (side (position p2) (position p1))
                      (side (position p2) (position p3))).
Proof.
  unfold Stage._calculateArea_value, Stage._calculateArea_vars,
    cross_product, side, position. simpl.
  set (u1 := Point.x p1 - Point.x p2). set (v1 := Point.y p1 - Point.y p2).
  set (u2 := Point.x p3 - Point.x p2). set (v2 := Point.y p3 - Point.y p2).
  destruct (ToBoolean (js_and _ _)) eqn:Hb.
  - apply ToBoolean_js_and in Hb as [H1 H2].
    now apply norms_sin_acos.
  - assert (Hz : ¬ (sqrt (u1 * u1 + v1 * v1) <> 0 /\
                    sqrt (u2 * u2 + v2 * v2) <> 0)).
    { rewrite <- ToBoolean_js_and, Hb. discriminate. }
    rewrite sin_0, Rmult_0_r.
    destruct (Req_dec_T (sqrt (u1 * u1 + v1 * v1)) 0) as [E|E].
    + apply norm_zero in E as [-> ->].
      rewrite Rmult_0_l, Rmult_0_l, Rminus_diag, Rabs_R0. reflexivity.
    + destruct (Req_dec_T (sqrt (u2 * u2 + v2 * v2)) 0) as [E'|E'];
        [|tauto].
      apply norm_zero in E' as [-> ->].
      rewrite !Rmult_0_r, Rminus_diag, Rabs_R0. reflexivity.
Qed.

Lemma calculateArea_points (this : Stage.t) (p1 p2 p3 : Point.t) rest :
  Stage.points this = p1 :: p2 :: p3 :: rest ->
  Stage._calculateArea this =
  Some (Stage.with_area this
          (Some (Stage._calculateArea_value
                   (Stage._calculateArea_vars p1 p2 p3)))).
Proof. intros H. unfold Stage._calculateArea. rewrite H. reflexivity. Qed.

Lemma computeArea_value (this : Stage.t) (p1 p2 p3 : Point.t) :
  computeArea this p1 p2 p3 =
  Some (Stage._calculateArea_value (Stage._calculateArea_vars p1 p2 p3)).
Proof. reflexivity. Qed.

(** In exact real arithmetic the angle [a] is in [[0, PI]] (the arc cosine
    of a quotient that lies in [[-1, 1]] when both sides have a length, and
    [0] otherwise), so the area formula [d1 * d2 * sin a] is never negative
    and neither is the argument [area / PI] of the square root that gives
    the radius of the circle.  The rounded quotient of the program can
    leave [[-1, 1]]: see [Binary64]. *)
Lemma area_nonneg_in_exact_reals (this : Stage.t) (p1 p2 p3 : Point.t) :
  let v := Stage._calculateArea_vars p1 p2 p3 in
  (Stage.d1 v <> 0 -> Stage.d2 v <> 0 ->
     Stage.a v = acos ((Stage.x1 v * Stage.x2 v + Stage.y1 v * Stage.y2 v)
                       / (Stage.d1 v * Stage.d2 v)) /\
     -1 <= (Stage.x1 v * Stage.x2 v + Stage.y1 v * Stage.y2 v)
           / (Stage.d1 v * Stage.d2 v) <= 1) /\
  (Stage.d1 v = 0 \/ Stage.d2 v = 0 -> Stage.a v = 0) /\
  0 <= Stage.a v <= PI /\
  ∃ area,
    computeArea this p1 p2 p3 = Some area /\
    area = Stage.d1 v * Stage.d2 v * sin (Stage.a v) /\
    0 <= area /\
    0 <= area / PI.
Proof.
  intros v.
  assert (Ha : 0 <= Stage.a v <= PI).
  { unfold v, Stage._calculateArea_vars; simpl.
    destruct (ToBoolean _); [apply acos_bound|].
    pose proof PI_RGT_0. lra. }
  assert (Har : 0 <= Stage.d1 v * Stage.d2 v * sin (Stage.a v)).
  { apply Rmult_le_pos; [apply Rmult_le_pos; apply sqrt_pos|].
    apply sin_ge_0; apply Ha. }
  repeat split; try apply Ha.
  - unfold v, Stage._calculateArea_vars; simpl.
    destruct (ToBoolean _) eqn:Hb; [reflexivity|].
    exfalso. assert (Hf : ToBoolean (js_and (Stage.d1 v) (Stage.d2 v)) = true)
      by (apply ToBoolean_js_and; split; assumption).
    unfold v, Stage._calculateArea_vars in Hf; simpl in Hf. congruence.
  - now apply acos_argument_in_domain.
  - now apply acos_argument_in_domain.
  - intros Hz. unfold v, Stage._calculateArea_vars; simpl.
    destruct (ToBoolean _) eqn:Hb; [|reflexivity].
    apply ToBoolean_js_and in Hb. unfold v in Hz; simpl in Hz. tauto.
  - exists (Stage.d1 v * Stage.d2 v * sin (Stage.a v)).
    repeat split; try exact Har.
    apply Rmult_le_pos; [exact Har|].
    left. apply Rinv_0_lt_compat, PI_RGT_0.
Qed.

(** C5. The stored area is the same when the first and the third point
    change places. *)
Theorem computeArea_swap (this : Stage.t) (p1 p2 p3 : Point.t) :
  is_Some (computeArea this p1 p2 p3) /\
  computeArea this p1 p2 p3 = computeArea this p3 p2 p1.
Proof.
  rewrite !computeArea_value. split; [eexists; reflexivity|].
  f_equal. rewrite !calculateArea_value_cross.
  rewrite <- Rabs_Ropp. f_equal.
  unfold cross_product, side, position; simpl. ring.
Qed.

(** C4. When the first (or the third) point lies on the second one, that
    side has length [0], the stored area is [0] and so is the radius
    [sqrt (area / PI)] of the circle. *)
Theorem degenerate_area_zero (this : Stage.t) (p1 p2 p3 : Point.t) :
  position p1 = position p2 \/ position p3 = position p2 ->
  let v := Stage._calculateArea_vars p1 p2 p3 in
  (position p1 = position p2 -> Stage.d1 v = 0) /\
  (position p3 = position p2 -> Stage.d2 v = 0) /\
  computeArea this p1 p2 p3 = Some 0 /\
  ∃ this',
    Stage._calculateArea (Stage.with_points this [p1; p2; p3]) = Some this' /\
    Stage.area this' = Some 0 /\
    Stage._draw_r this' = 0.
Proof.
  intros H v.
  assert (Hd1 : position p1 = position p2 -> Stage.d1 v = 0).
  { intros [= Hx Hy]. unfold v; simpl. rewrite Hx, Hy, !Rminus_diag.
    rewrite Rmult_0_l, Rplus_0_l. apply sqrt_0. }
  assert (Hd2 : position p3 = position p2 -> Stage.d2 v = 0).
  { intros [= Hx Hy]. unfold v; simpl. rewrite Hx, Hy, !Rminus_diag.
    rewrite Rmult_0_l, Rplus_0_l. apply sqrt_0. }
  assert (Hv : Stage._calculateArea_value v = 0).
  { unfold v. rewrite calculateArea_value_cross.
    unfold cross_product, side, position in *; simpl.
    destruct H as [[= Hx Hy]|[= Hx Hy]]; rewrite Hx, Hy, !Rminus_diag;
      rewrite ?Rmult_0_l, ?Rmult_0_r, Rminus_diag; apply Rabs_R0. }
  repeat split; try assumption.
  - rewrite computeArea_value. fold v. now rewrite Hv.
  - eexists. split; [reflexivity|]. fold v. rewrite Hv. split; [reflexivity|].
    unfold Stage._draw_r; simpl. unfold Rdiv. rewrite Rmult_0_l. apply sqrt_0.
Qed.

Lemma degenerate_area_zero_witness :
  (position (Point.new 10 20) = position (Point.new 10 20) \/
   position (Point.new 30 40) = position (Point.new 10 20)) /\
  computeArea (Stage.new canvas0)
    (Point.new 10 20) (Point.new 10 20) (Point.new 30 40) = Some 0.
Proof.
  split; [left; reflexivity|].
  apply (degenerate_area_zero (Stage.new canvas0)
           (Point.new 10 20) (Point.new 10 20) (Point.new 30 40)).
  left; reflexivity.
Defined.

(** ** The fourth corner *)

(** C6. With the corner [p4] that [_draw] computes, the four corners taken
    in the order p1, p2, p3, p4 have the side p1-p2 parallel to and as long
    as the side p4-p3, and the side p2-p3 parallel to and as long as the
    side p1-p4.  This holds for any three points, the non-degenerate ones
    included. *)
Theorem fourth_corner_parallelogram (p1 p2 p3 : Point.t) :
  let p4 := Stage._draw_p4 p1 p2 p3 in
  XY.x p4 = Point.x p3 - (Point.x p2 - Point.x p1) /\
  XY.y p4 = Point.y p1 + (Point.y p3 - Point.y p2) /\
  parallel (side (position p1) (position p2)) (side p4 (position p3)) /\
  side_length (side (position p1) (position p2)) =
    side_length (side p4 (position p3)) /\
  parallel (side (position p2) (position p3)) (side (position p1) p4) /\
  side_length (side (position p2) (position p3)) =
    side_length (side (position p1) p4).
Proof.
  intros p4.
  assert (H12 : side (position p1) (position p2) = side p4 (position p3)).
  { unfold side, position, p4, Stage._draw_p4; simpl. f_equal; ring. }
  assert (H23 : side (position p2) (position p3) = side (position p1) p4).
  { unfold side, position, p4, Stage._draw_p4; simpl. f_equal; ring. }
  rewrite <- H12, <- H23.
  repeat split; unfold parallel, cross_product; ring.
Qed.

(** ** Stage *)

Lemma check_other (this : Stage.t) :
  length (Stage.points this) ≠ 3%nat -> Stage._check this = Some this.
Proof.
  intros H. unfold Stage._check.
  destruct (decide _) as [E|E]; [congruence|reflexivity].
Qed.

Lemma check_three (this : Stage.t) (p1 p2 p3 : Point.t) :
  Stage.points this = [p1; p2; p3] ->
  Stage._check this =
  Stage._draw
    (Stage.with_area
       (Stage.with_center this (Some (Stage._calculate_center p1 p3)))
       (Some (Stage._calculateArea_value
                (Stage._calculateArea_vars p1 p2 p3)))).
Proof.
  intros H. unfold Stage._check, Stage._calculate, Stage._calculateArea.
  simpl. rewrite H. reflexivity.
Qed.

Lemma draw_shapes_defined (this : Stage.t) (p1 p2 p3 : Point.t) (c : XY.t) :
  Stage.points this = [p1; p2; p3] ->
  Stage.center this = Some c ->
  ∃ ops,
    Stage._draw this = Some (Stage.with_ctx this (Stage.ctx this ++ ops)).
Proof.
  intros H Hc. unfold Stage._draw. rewrite H, Hc. simpl. eexists. reflexivity.
Qed.

(** [_check] never throws: the three points it reads are there whenever it
    reads them. *)
Lemma check_defined (this : Stage.t) :
  ∃ this', Stage._check this = Some this' /\
           Stage.points this' = Stage.points this.
Proof.
  destruct (decide (length (Stage.points this) = 3%nat)) as [E|E].
  - destruct (Stage.points this) as [|p1 [|p2 [|p3 [|]]]] eqn:Hp;
      try discriminate.
    rewrite (check_three this p1 p2 p3 Hp).
    edestruct (draw_shapes_defined
      (Stage.with_area
         (Stage.with_center this (Some (Stage._calculate_center p1 p3)))
         (Some (Stage._calculateArea_value
                  (Stage._calculateArea_vars p1 p2 p3)))) p1 p2 p3)
      as [ops Hops]; [exact Hp|reflexivity|].
    rewrite Hops. eexists. split; [reflexivity|]. simpl. exact Hp.
  - rewrite check_other by exact E. eauto.
Qed.

Lemma addPoint_defined (this : Stage.t) (point : Point.t) :
  ∃ this', Stage.addPoint this point = Some this' /\
           Stage.points this' = Stage.points this ++ [point].
Proof. unfold Stage.addPoint. apply check_defined. Qed.

Lemma draw_defined (this : Stage.t) :
  ∃ this', Stage.draw this = Some this' /\
           Stage.points this' = Stage.points this.
Proof.
  unfold Stage.draw.
  edestruct check_defined as (this' & Hc & Hp).
  exists this'. split; [exact Hc|]. rewrite Hp. reflexivity.
Qed.

Lemma addPoint_other (this : Stage.t) (point : Point.t) :
  S (length (Stage.points this)) ≠ 3%nat ->
  Stage.addPoint this point =
  Some (Stage.mk (Point.draw point (Stage.ctx this))
          (Stage.width this) (Stage.height this)
          (Stage.points this ++ [point])
          (Stage.center this) (Stage.area this)).
Proof.
  intros H. unfold Stage.addPoint. rewrite check_other; [reflexivity|].
  simpl. rewrite length_app. simpl. lia.
Qed.

(** C10. [addPoint] assigns [center] and [area] only when the push makes
    the number of points exactly three; a push to any other number, a fourth
    point included, appends the point and leaves both fields as they were,
    whatever the points now are. *)
Theorem addPoint_recomputes_only_at_three (this : Stage.t) (point : Point.t) :
  (S (length (Stage.points this)) ≠ 3%nat ->
   ∃ this',
     Stage.addPoint this point = Some this' /\
     Stage.points this' = Stage.points this ++ [point] /\
     Stage.center this' = Stage.center this /\
     Stage.area this' = Stage.area this) /\
  (S (length (Stage.points this)) = 3%nat ->
   ∃ this' p1 p2,
     Stage.points this = [p1; p2] /\
     Stage.addPoint this point = Some this' /\
     Stage.points this' = [p1; p2; point] /\
     Stage.center this' = Some (Stage._calculate_center p1 point) /\
     Stage.area this' =
       Some (Stage._calculateArea_value
               (Stage._calculateArea_vars p1 p2 point))).
Proof.
  split; intros H.
  - rewrite addPoint_other by exact H. eexists. repeat split.
  - destruct (Stage.points this) as [|p1 [|p2 [|]]] eqn:Hp; try discriminate.
    unfold Stage.addPoint. erewrite check_three; last first.
    { simpl. rewrite Hp. reflexivity. }
    unfold Stage._draw. simpl. rewrite Hp. simpl.
    eexists _, p1, p2. repeat split.
Qed.

Lemma addPoint_recomputes_only_at_three_witness :
  S (length (Stage.points (square_stage canvas0))) ≠ 3%nat /\
  ∃ this',
    Stage.addPoint (square_stage canvas0) (Point.new 3 4) = Some this' /\
    Stage.points this' =
      Stage.points (square_stage canvas0) ++ [Point.new 3 4] /\
    Stage.center this' = Stage.center (square_stage canvas0) /\
    Stage.area this' = Stage.area (square_stage canvas0).
Proof.
  assert (H : S (length (Stage.points (square_stage canvas0))) ≠ 3%nat)
    by (simpl; lia).
  split; [exact H|].
  exact (proj1 (addPoint_recomputes_only_at_three
                  (square_stage canvas0) (Point.new 3 4)) H).
Defined.

(** C1, as the code has it.  A stage that holds three points takes a fourth:
    [addPoint] appends it, so the stage then holds four, and it leaves
    [center] and [area] untouched. *)
Theorem addPoint_fourth_appends (this : Stage.t) (point : Point.t) :
  length (Stage.points this) = 3%nat ->
  ∃ this',
    Stage.addPoint this point = Some this' /\
    Stage.points this' = Stage.points this ++ [point] /\
    length (Stage.points this') = 4%nat /\
    Stage.center this' = Stage.center this /\
    Stage.area this' = Stage.area this.
Proof.
  intros H. rewrite addPoint_other by lia.
  eexists. repeat split. simpl. rewrite length_app, H. reflexivity.
Qed.

Lemma addPoint_fourth_appends_witness :
  length (Stage.points (square_stage canvas0)) = 3%nat /\
  ∃ this',
    Stage.addPoint (square_stage canvas0) (Point.new 3 4) = Some this' /\
    Stage.points this' =
      Stage.points (square_stage canvas0) ++ [Point.new 3 4] /\
    length (Stage.points this') = 4%nat /\
    Stage.center this' = Stage.center (square_stage canvas0) /\
    Stage.area this' = Stage.area (square_stage canvas0).
Proof.
  split; [reflexivity|].
  apply (addPoint_fourth_appends (square_stage canvas0) (Point.new 3 4)).
  reflexivity.
Defined.

(** C1, as the claim has it, fails: the stage of the square holds three
    points, and after [addPoint] it holds four. *)
Lemma addPoint_fourth_changes_length :
  length (Stage.points (square_stage canvas0)) = 3%nat /\
  ∃ this',
    Stage.addPoint (square_stage canvas0) (Point.new 3 4) = Some this' /\
    length (Stage.points this') = 4%nat /\
    length (Stage.points this') ≠ 3%nat.
Proof.
  split; [reflexivity|].
  eexists. split; [reflexivity|]. split; [reflexivity|]. simpl. lia.
Qed.

(** ** The square (0,0), (10,0), (10,10) *)

Lemma square_area :
  Stage._calculateArea_value
    (Stage._calculateArea_vars
       (Point.new 0 0) (Point.new 10 0) (Point.new 10 10)) = 100.
Proof.
  rewrite calculateArea_value_cross.
  unfold cross_product, side, position; simpl.
  unfold Rabs. destruct (Rcase_abs _); lra.
Qed.

(** C7. Placing (0,0), (10,0) and (10,10) in this order draws the fourth
    corner at (0,10), stores the centre (5,5), the midpoint of the first and
    the third point, and the area 100, and draws the circle with radius
    [sqrt (100 / PI)]. *)
Theorem square_scenario (canvas : Canvas.t) :
  (this ← Stage.addPoint (Stage.new canvas) (Point.new 0 0);
   this ← Stage.addPoint this (Point.new 10 0);
   Stage.addPoint this (Point.new 10 10)) = Some (square_stage canvas) /\
  Stage._draw_p4 (Point.new 0 0) (Point.new 10 0) (Point.new 10 10) =
    {| XY.x := 0; XY.y := 10 |} /\
  Stage.center (square_stage canvas) = Some {| XY.x := 5; XY.y := 5 |} /\
  Stage._calculate_center (Point.new 0 0) (Point.new 10 10) =
    {| XY.x := 5; XY.y := 5 |} /\
  Stage.area (square_stage canvas) = Some 100 /\
  computeArea (Stage.new canvas)
    (Point.new 0 0) (Point.new 10 0) (Point.new 10 10) = Some 100 /\
  Stage._draw_r (square_stage canvas) = sqrt (100 / PI).
Proof.
  assert (Hp4 : Stage._draw_p4 (Point.new 0 0) (Point.new 10 0)
                  (Point.new 10 10) = {| XY.x := 0; XY.y := 10 |}).
  { unfold Stage._draw_p4; simpl. f_equal; lra. }
  assert (Hc : Stage._calculate_center (Point.new 0 0) (Point.new 10 10) =
               {| XY.x := 5; XY.y := 5 |}).
  { unfold Stage._calculate_center; simpl. f_equal; lra. }
  repeat split; try assumption; try reflexivity.
  - unfold Stage.addPoint; simpl.
    erewrite check_three by reflexivity.
    rewrite square_area, Hc.
    unfold Stage._draw; simpl.
    unfold Point.draw, square_stage, square_stage_on, Stage.with_ctx; simpl.
    rewrite <- !app_assoc; simpl.
    replace (10 - (10 - 0)) with 0 by lra.
    replace (0 + (10 - 0)) with 10 by lra.
    reflexivity.
  - rewrite computeArea_value, square_area. reflexivity.
Qed.

(** ** The event handlers *)

Lemma getCoords_page_event (canvas : Canvas.t) (x y : R) :
  App._getCoords canvas (page_event canvas x y) = {| XY.x := x; XY.y := y |}.
Proof.
  unfold App._getCoords, page_event.
  destruct (Canvas.offsetParent_defined canvas); simpl; f_equal; lra.
Qed.

Lemma list_find_snoc {A} (P : A → Prop) `{∀ x, Decision (P x)}
    (l : list A) (x : A) :
  list_find P (l ++ [x]) =
  match list_find P l with
  | Some r => Some r
  | None => if decide (P x) then Some (length l, x) else None
  end.
Proof.
  induction l as [|y l IH]; simpl.
  - destruct (decide (P x)); reflexivity.
  - destruct (decide (P y)); [reflexivity|].
    rewrite IH. destruct (list_find P l) as [[i z]|]; simpl; [reflexivity|].
    destruct (decide (P x)); reflexivity.
Qed.

(** The loop of [_startMove] leaves in [point], [dx], [dy] the first point
    in insertion order that contains the pointer, and leaves the three
    variables alone when no point does. *)
Lemma startMove_loop_first_hit (points : list Point.t) (coords : XY.t)
    (n : nat) vars :
  (n ≤ length points)%nat ->
  App._startMove_loop points coords n vars =
  Some match first_hit (take n points) coords with
       | Some (i, p) => grabbed coords i p
       | None => vars
       end.
Proof.
  revert vars. induction n as [|n IH]; intros vars Hn.
  - rewrite take_0. reflexivity.
  - destruct (lookup_lt_is_Some_2 points n) as [p Hp]; [lia|].
    simpl. rewrite Hp. simpl. rewrite IH by lia.
    rewrite (take_S_r _ _ _ Hp). unfold first_hit.
    rewrite list_find_snoc, length_take_le by lia.
    fold (first_hit (take n points) coords).
    destruct (first_hit (take n points) coords) as [[i q]|]; [reflexivity|].
    destruct (Point.contains p (XY.x coords) (XY.y coords)) eqn:Hc.
    + rewrite decide_True by reflexivity. reflexivity.
    + rewrite decide_False by discriminate. reflexivity.
Qed.

Lemma startMove_first_hit (app : App.t) (e : Event) :
  App._startMove app e =
  Some match first_hit (Stage.points (App.stage app))
               (App._getCoords (App.canvas app) e) with
       | Some (i, p) =>
           let '(point, dx, dy) :=
             grabbed (App._getCoords (App.canvas app) e) i p in
           App.with_drag app point dx dy
       | None => App.with_drag app (App.point app) (App.dx app) (App.dy app)
       end.
Proof.
  unfold App._startMove. rewrite startMove_loop_first_hit by lia.
  rewrite firstn_all. simpl.
  destruct (first_hit _ _) as [[i p]|]; reflexivity.
Qed.

Arguments Point.contains : simpl never.

(** Settles [contains] on concrete points and coordinates. *)
Ltac decide_contains :=
  repeat match goal with
  | |- context [Point.contains ?p ?x ?y] =>
      first
        [ replace (Point.contains p x y) with true
            by (symmetry; apply contains_true; simpl; lra)
        | replace (Point.contains p x y) with false
            by (symmetry; apply not_true_iff_false;
                rewrite contains_true; simpl; lra) ]
  end.

Lemma first_hit_cons (p : Point.t) (points : list Point.t) (coords : XY.t) :
  first_hit (p :: points) coords =
  if Point.contains p (XY.x coords) (XY.y coords)
  then Some (0%nat, p)
  else fmap (M:=option) (prod_map S Datatypes.id) (first_hit points coords).
Proof.
  unfold first_hit; simpl.
  destruct (Point.contains p (XY.x coords) (XY.y coords)) eqn:Hc.
  - rewrite decide_True by reflexivity. reflexivity.
  - rewrite decide_False by discriminate. reflexivity.
Qed.

Lemma mousedown_handler (app : App.t) (x y : R) :
  App.mousedown__startMove (App.listeners app) = true ->
  App.dispatch app (event_at (App.canvas app) mousedown x y) =
  Some match first_hit (Stage.points (App.stage app))
               {| XY.x := x; XY.y := y |} with
       | Some (i, p) =>
           App.with_drag app (Some (App.InStage i))
             (Some (x - Point.x p)) (Some (y - Point.y p))
       | None => App.with_drag app (App.point app) (App.dx app) (App.dy app)
       end.
Proof.
  intros Hl. unfold event_at, App.dispatch. rewrite Hl.
  rewrite startMove_first_hit, getCoords_page_event.
  destruct (first_hit _ _) as [[i p]|]; reflexivity.
Qed.

Lemma mousemove_handler (app : App.t) (x y : R)
    (i : nat) (p : Point.t) (dx dy : R) (stage : Stage.t) :
  App.mousemove__move (App.listeners app) = true ->
  App.point app = Some (App.InStage i) ->
  App.dx app = Some dx ->
  App.dy app = Some dy ->
  Stage.points (App.stage app) !! i = Some p ->
  Stage.draw
    (Stage.with_points (App.stage app)
       (<[i := Point.mk (x - dx) (y - dy) (Point.radius p)]>
          (Stage.points (App.stage app)))) = Some stage ->
  App.dispatch app (event_at (App.canvas app) mousemove x y) =
  Some (App.with_stage app stage).
Proof.
  intros Hl Hp Hdx Hdy Hi Hs. unfold event_at, App.dispatch. rewrite Hl.
  unfold App._move. rewrite Hp, Hdx, Hdy, getCoords_page_event. simpl.
  rewrite Hi. simpl. rewrite Hs. reflexivity.
Qed.

(** A pointer-move while nothing is held does nothing. *)
Lemma move_without_target (app : App.t) (e : Event) :
  App.point app = None -> App._move app e = Some app.
Proof. intros H. unfold App._move. rewrite H. reflexivity. Qed.

(** Once the click handler is detached, a click no longer reaches
    [addPoint]. *)
Lemma click_detached (app : App.t) (e : Event) :
  App.click__addPoint (App.listeners app) = false ->
  App.dispatch app (click, e) = Some app.
Proof. intros H. unfold App.dispatch. rewrite H. reflexivity. Qed.

Lemma run_step (app app' : App.t) ev evs :
  App.dispatch app ev = Some app' ->
  App.run app (ev :: evs) = App.run app' evs.
Proof. intros H. simpl. rewrite H. reflexivity. Qed.

Lemma run_app (app : App.t) evs1 evs2 :
  App.run app (evs1 ++ evs2) = App.run app evs1 ≫= λ app, App.run app evs2.
Proof.
  revert app. induction evs1 as [|ev evs1 IH]; intros app; [reflexivity|].
  simpl. destruct (App.dispatch app ev) as [app'|]; [apply IH|reflexivity].
Qed.

Lemma run_app_Some (app app' : App.t) evs1 evs2 :
  App.run app evs1 = Some app' ->
  App.run app (evs1 ++ evs2) = App.run app' evs2.
Proof. intros H. rewrite run_app, H. reflexivity. Qed.

Lemma click_placing (app : App.t) (x y : R) (stage : Stage.t) :
  App.click__addPoint (App.listeners app) = true ->
  Stage.addPoint (App.stage app) (Point.new x y) = Some stage ->
  length (Stage.points stage) ≠ 3%nat ->
  App.dispatch app (event_at (App.canvas app) click x y) =
  Some (App.with_stage app stage).
Proof.
  intros Hl Hs Hn. unfold event_at, App.dispatch. rewrite Hl.
  unfold App._addPoint. rewrite getCoords_page_event. simpl.
  rewrite Hs. simpl. destruct (decide _); [congruence|reflexivity].
Qed.

Lemma click_third (app : App.t) (x y : R) (stage : Stage.t) :
  App.click__addPoint (App.listeners app) = true ->
  Stage.addPoint (App.stage app) (Point.new x y) = Some stage ->
  length (Stage.points stage) = 3%nat ->
  App.dispatch app (event_at (App.canvas app) click x y) =
  Some (App.with_listeners (App.with_stage app stage)
          (App.mkListeners false true true true)).
Proof.
  intros Hl Hs Hn. unfold event_at, App.dispatch. rewrite Hl.
  unfold App._addPoint. rewrite getCoords_page_event. simpl.
  rewrite Hs. simpl. destruct (decide _); [reflexivity|congruence].
Qed.

(** ** The square, placed and dragged *)

Lemma square_center :
  Stage._calculate_center (Point.new 0 0) (Point.new 10 10) =
  {| XY.x := 5; XY.y := 5 |}.
Proof. unfold Stage._calculate_center; simpl. f_equal; lra. Qed.

Lemma square_placed (log : Context2D) (canvas : Canvas.t) :
  let s0 := Stage.mk log (Canvas.width canvas) (Canvas.height canvas)
              [] None None in
  let s1 := Stage.mk (Point.draw (Point.new 0 0) log)
              (Canvas.width canvas) (Canvas.height canvas)
              [Point.new 0 0] None None in
  let s2 := Stage.mk (Point.draw (Point.new 10 0)
                        (Point.draw (Point.new 0 0) log))
              (Canvas.width canvas) (Canvas.height canvas)
              [Point.new 0 0; Point.new 10 0] None None in
  Stage.addPoint s0 (Point.new 0 0) = Some s1 /\
  Stage.addPoint s1 (Point.new 10 0) = Some s2 /\
  Stage.addPoint s2 (Point.new 10 10) = Some (square_stage_on log canvas).
Proof.
  intros s0 s1 s2. split; [|split].
  - apply addPoint_other. simpl. lia.
  - apply addPoint_other. simpl. lia.
  - unfold Stage.addPoint; simpl.
    erewrite check_three by reflexivity.
    rewrite square_area, square_center.
    unfold Stage._draw; simpl.
    unfold Point.draw, square_stage_on, Stage.with_ctx; simpl.
    rewrite <- !app_assoc; simpl.
    replace (10 - (10 - 0)) with 0 by lra.
    replace (0 + (10 - 0)) with 10 by lra.
    reflexivity.
Qed.

Lemma square_app_reached (canvas : Canvas.t) :
  App.run (App._init canvas)
    [ event_at canvas click 0 0;
      event_at canvas click 10 0;
      event_at canvas click 10 10 ] = Some (square_app canvas).
Proof.
  destruct (square_placed
    (Canvas.context2d canvas ++
     [clearRect 0 0 (Canvas.width canvas) (Canvas.height canvas)]) canvas)
    as (H1 & H2 & H3).
  erewrite run_step;
    [|eapply (click_placing (App._init canvas));
      [reflexivity|exact H1|simpl; lia]].
  erewrite run_step;
    [|eapply (click_placing (App.with_stage (App._init canvas) _));
      [reflexivity|exact H2|simpl; lia]].
  erewrite run_step;
    [|eapply (click_third
               (App.with_stage (App.with_stage (App._init canvas) _) _));
      [reflexivity|exact H3|reflexivity]].
  reflexivity.
Qed.

Lemma dragged_area :
  Stage._calculateArea_value
    (Stage._calculateArea_vars
       (Point.new 0 0) (Point.new 20 0) (Point.new 10 10)) = 200.
Proof.
  rewrite calculateArea_value_cross.
  unfold cross_product, side, position; simpl.
  unfold Rabs. destruct (Rcase_abs _); lra.
Qed.

(** Pointer-down on the second point of the square: it is the only point
    hit, and the pointer sits on its origin. *)
Lemma square_app_grabbed (canvas : Canvas.t) :
  App.dispatch (square_app canvas) (event_at canvas mousedown 10 0) =
  Some (App.with_drag (square_app canvas)
          (Some (App.InStage 1)) (Some 0) (Some 0)).
Proof.
  rewrite (mousedown_handler (square_app canvas)) by reflexivity.
  change (Stage.points (App.stage (square_app canvas)))
    with [Point.new 0 0; Point.new 10 0; Point.new 10 10].
  rewrite !first_hit_cons. cbn [XY.x XY.y].
  decide_contains. simpl.
  replace (10 - 10) with 0 by lra. replace (0 - 0) with 0 by lra.
  reflexivity.
Qed.

(** The redraw after the second point has moved to (20,0). *)
Lemma dragged_stage_drawn (canvas : Canvas.t) :
  Stage.draw
    (Stage.with_points (App.stage (square_app canvas))
       [Point.new 0 0; Point.new 20 0; Point.new 10 10]) =
  Some (App.stage (dragged_app canvas)).
Proof.
  unfold Stage.draw. erewrite check_three by reflexivity.
  rewrite dragged_area, square_center.
  unfold Stage._draw; simpl.
  unfold Point.draw, Stage.with_ctx; simpl.
  rewrite <- !app_assoc; simpl.
  replace (10 - (20 - 0)) with (-10) by lra.
  replace (0 + (10 - 0)) with 10 by lra.
  reflexivity.
Qed.

Lemma dragged_app_reached (canvas : Canvas.t) :
  App.run (square_app canvas)
    [ event_at canvas mousedown 10 0;
      event_at canvas mousemove 20 0 ] = Some (dragged_app canvas).
Proof.
  erewrite run_step by apply square_app_grabbed.
  erewrite run_step; [reflexivity|].
  eapply (mousemove_handler
            (App.with_drag (square_app canvas)
               (Some (App.InStage 1)) (Some 0) (Some 0))
            20 0 1 (Point.new 10 0) 0 0);
    try reflexivity.
  simpl. replace (20 - 0) with 20 by lra. replace (0 - 0) with 0 by lra.
  apply dragged_stage_drawn.
Qed.

(** C2. Pointer-down in the ready state tests every point, from the last
    placed to the first, and on a hit records the point and the offset of
    the pointer from its origin.  Where the squares of several points
    overlap the loop does not stop at its first hit, so the point it leaves
    in [point] is the first placed among those hit, not the last: with the
    square placed, a pointer-down at (10,5) lies in the squares of the
    second and of the third point, and the second one is taken. *)
Theorem startMove_overlap_takes_first_placed :
  Point.contains (Point.new 0 0) 10 5 = false /\
  Point.contains (Point.new 10 0) 10 5 = true /\
  Point.contains (Point.new 10 10) 10 5 = true /\
  App.run (App._init canvas0)
    [ event_at canvas0 click 0 0;
      event_at canvas0 click 10 0;
      event_at canvas0 click 10 10;
      event_at canvas0 mousedown 10 5 ] =
  Some (App.with_drag (square_app canvas0)
          (Some (App.InStage 1)) (Some 0) (Some 5)).
Proof.
  split; [|split; [|split]].
  - apply not_true_iff_false. rewrite contains_true. simpl. lra.
  - apply contains_true. simpl. lra.
  - apply contains_true. simpl. lra.
  - change [ event_at canvas0 click 0 0; event_at canvas0 click 10 0;
             event_at canvas0 click 10 10; event_at canvas0 mousedown 10 5 ]
      with ([ event_at canvas0 click 0 0; event_at canvas0 click 10 0;
              event_at canvas0 click 10 10 ] ++
            [ event_at canvas0 mousedown 10 5 ]).
    erewrite run_app_Some by apply square_app_reached.
    erewrite run_step; [reflexivity|].
    rewrite (mousedown_handler (square_app canvas0)) by reflexivity.
    change (Stage.points (App.stage (square_app canvas0)))
      with [Point.new 0 0; Point.new 10 0; Point.new 10 10].
    rewrite !first_hit_cons. cbn [XY.x XY.y].
    decide_contains. simpl.
    replace (10 - 10) with 0 by lra. replace (5 - 0) with 5 by lra.
    reflexivity.
Qed.

(** C9, as the claim has it, fails: dragging the second point of the square
    from (10,0) to (20,0) leaves the stored centre as it was. *)
Lemma drag_second_point_keeps_center :
  ∃ before after,
    App.run (App._init canvas0)
      [ event_at canvas0 click 0 0;
        event_at canvas0 click 10 0;
        event_at canvas0 click 10 10 ] = Some before /\
    App.run before
      [ event_at canvas0 mousedown 10 0;
        event_at canvas0 mousemove 20 0 ] = Some after /\
    Stage.center (App.stage after) = Stage.center (App.stage before).
Proof.
  exists (square_app canvas0), (dragged_app canvas0).
  split; [apply square_app_reached|].
  split; [apply dragged_app_reached|reflexivity].
Qed.

(** C9, as the code has it.  With the square placed, dragging the second
    point from (10,0) to (20,0) redraws the whole stage and assigns [center]
    and [area] again from the three points as they now are: the area is no
    longer the 100 it was, the centre, the midpoint of the first and the
    third point, is (5,5) as before, and the stage still holds three
    points. *)
Theorem drag_second_point (canvas : Canvas.t) :
  ∃ before after,
    App.run (App._init canvas)
      [ event_at canvas click 0 0;
        event_at canvas click 10 0;
        event_at canvas click 10 10 ] = Some before /\
    App.run before
      [ event_at canvas mousedown 10 0;
        event_at canvas mousemove 20 0 ] = Some after /\
    Stage.points (App.stage before) =
      [Point.new 0 0; Point.new 10 0; Point.new 10 10] /\
    Stage.points (App.stage after) =
      [Point.new 0 0; Point.new 20 0; Point.new 10 10] /\
    length (Stage.points (App.stage after)) = 3%nat /\
    Stage.ctx (App.stage after) =
      Stage.ctx (App.stage before) ++
      [clearRect 0 0 (Canvas.width canvas) (Canvas.height canvas)] ++
      point_calls [Point.new 0 0; Point.new 20 0; Point.new 10 10] ++
      shape_calls (Point.new 0 0) (Point.new 20 0) (Point.new 10 10) /\
    Stage._calculate (App.stage after) = Some (App.stage after) /\
    Stage.area (App.stage after) =
      Some (Stage._calculateArea_value
              (Stage._calculateArea_vars
                 (Point.new 0 0) (Point.new 20 0) (Point.new 10 10))) /\
    Stage.area (App.stage before) = Some 100 /\
    Stage.area (App.stage after) ≠ Stage.area (App.stage before) /\
    Stage.center (App.stage before) = Some {| XY.x := 5; XY.y := 5 |} /\
    Stage.center (App.stage after) = Some {| XY.x := 5; XY.y := 5 |}.
Proof.
  exists (square_app canvas), (dragged_app canvas).
  split; [apply square_app_reached|].
  split; [apply dragged_app_reached|].
  split; [reflexivity|]. split; [reflexivity|]. split; [reflexivity|].
  split.
  { unfold shape_calls, point_calls, Point.draw; simpl.
    rewrite dragged_area.
    replace (10 - (20 - 0)) with (-10) by lra.
    replace (0 + (10 - 0)) with 10 by lra.
    replace ((0 + 10) / 2) with 5 by lra.
    reflexivity. }
  split.
  { unfold Stage._calculate, Stage._calculateArea.
    simpl. rewrite dragged_area, square_center. reflexivity. }
  split; [rewrite dragged_area; reflexivity|].
  split; [reflexivity|].
  split; [simpl; intros [= H]; lra|].
  split; reflexivity.
Qed.

(** ** The handlers never throw *)

Lemma first_hit_bound (points : list Point.t) (coords : XY.t) i p :
  first_hit points coords = Some (i, p) ->
  points !! i = Some p /\
  Point.contains p (XY.x coords) (XY.y coords) = true.
Proof.
  unfold first_hit. intros H. apply list_find_Some in H as (Hi & Hc & _).
  split; assumption.
Qed.

Lemma init_drag_ready (canvas : Canvas.t) : drag_ready (App._init canvas).
Proof. exact I. Qed.

Lemma reset_drag_ready (app : App.t) :
  drag_ready app -> drag_ready (App._reset app).
Proof.
  unfold drag_ready, App._reset; simpl.
  destruct (App.point app) as [[i|p]|]; simpl; try tauto.
  intros (Hx & Hy & Hi).
  destruct (lookup_lt_is_Some_2 _ _ Hi) as [p Hp]. rewrite Hp. simpl. tauto.
Qed.

(** From a state that is [drag_ready], every event is handled without a
    TypeError and leaves a state that is [drag_ready]. *)
Lemma dispatch_defined (app : App.t) ev :
  drag_ready app ->
  ∃ app', App.dispatch app ev = Some app' /\ drag_ready app'.
Proof.
  intros Hr. destruct ev as [[| | |] e]; unfold App.dispatch.
  - destruct (App.click__addPoint _); [|eauto].
    unfold App._addPoint.
    destruct (addPoint_defined (App.stage app)
                (Point.new (XY.x (App._getCoords (App.canvas app) e))
                           (XY.y (App._getCoords (App.canvas app) e))))
      as (stage & Hs & Hp).
    rewrite Hs. simpl.
    assert (Hk : drag_ready (App.with_stage app stage)).
    { unfold drag_ready in *; simpl.
      destruct (App.point app) as [[i|p]|]; try tauto.
      rewrite Hp, length_app. simpl. intuition lia. }
    destruct (decide _); eexists; (split; [reflexivity|exact Hk]).
  - destruct (App.mousedown__startMove _); [|eauto].
    rewrite startMove_first_hit.
    destruct (first_hit _ _) as [[i p]|] eqn:Hf.
    + eexists. split; [reflexivity|].
      apply first_hit_bound in Hf as [Hi _].
      unfold drag_ready; simpl. repeat split; eauto.
      eapply lookup_lt_Some. exact Hi.
    + eexists. split; [reflexivity|].
      unfold drag_ready in *; simpl. exact Hr.
  - destruct (App.mouseup__stopMove _); [|eauto].
    eexists. split; [reflexivity|exact I].
  - destruct (App.mousemove__move _); [|eauto].
    unfold App._move. unfold drag_ready in Hr.
    destruct (App.point app) as [[i|p]|] eqn:Hpt.
    + destruct Hr as ([dx Hx] & [dy Hy] & Hi).
      destruct (lookup_lt_is_Some_2 _ _ Hi) as [p Hp].
      rewrite Hx, Hy. simpl. rewrite Hp. simpl.
      edestruct draw_defined as (stage & Hs & Hps). rewrite Hs. simpl.
      eexists. split; [reflexivity|].
      unfold drag_ready; simpl. rewrite Hpt, Hx, Hy.
      repeat split; eauto.
      rewrite Hps. simpl. rewrite length_insert. exact Hi.
    + destruct Hr as ([dx Hx] & [dy Hy] & _).
      rewrite Hx, Hy. simpl.
      edestruct draw_defined as (stage & Hs & Hps). rewrite Hs. simpl.
      eexists. split; [reflexivity|].
      unfold drag_ready; simpl. rewrite Hx, Hy. repeat split; eauto.
    + eexists. split; [reflexivity|].
      unfold drag_ready. rewrite Hpt. exact I.
Qed.

(** Whatever the events, the application started on a canvas handles them
    all. *)
Lemma run_defined (app : App.t) evs :
  drag_ready app -> ∃ app', App.run app evs = Some app' /\ drag_ready app'.
Proof.
  revert app. induction evs as [|ev evs IH]; intros app Hr; [eauto|].
  destruct (dispatch_defined app ev Hr) as (app1 & H1 & Hr1).
  simpl. rewrite H1. simpl. apply IH. exact Hr1.
Qed.

(** With the square placed the click handler is gone: a fourth click
    changes nothing. *)
Lemma square_app_click_ignored (canvas : Canvas.t) (x y : R) :
  App.dispatch (square_app canvas) (event_at canvas click x y) =
  Some (square_app canvas).
Proof. apply click_detached. reflexivity. Qed.

(** * Further properties *)

(** ** What [_check], [addPoint] and [draw] return *)

Lemma check_result (this : Stage.t) :
  Stage._check this = Some (checked this).
Proof.
  unfold checked.
  destruct (Stage.points this) as [|p1 [|p2 [|p3 [|p4 rest]]]] eqn:Hp;
    try (apply check_other; rewrite Hp; simpl; lia).
  rewrite (check_three this p1 p2 p3 Hp).
  destruct this as [c w h ps ce ar]; simpl in Hp; subst ps.
  reflexivity.
Qed.

Lemma checked_points (this : Stage.t) :
  Stage.points (checked this) = Stage.points this.
Proof.
  unfold checked.
  destruct (Stage.points this) as [|p1 [|p2 [|p3 [|p4 rest]]]] eqn:Hp;
    simpl; congruence.
Qed.

Lemma checked_size (this : Stage.t) :
  Stage.width (checked this) = Stage.width this /\
  Stage.height (checked this) = Stage.height this.
Proof.
  unfold checked.
  destruct (Stage.points this) as [|p1 [|p2 [|p3 [|p4 rest]]]];
    split; reflexivity.
Qed.

Lemma checked_other (this : Stage.t) :
  length (Stage.points this) ≠ 3%nat -> checked this = this.
Proof.
  unfold checked. intros H.
  destruct (Stage.points this) as [|p1 [|p2 [|p3 [|p4 rest]]]];
    try reflexivity.
  simpl in H. lia.
Qed.

Lemma checked_three (this : Stage.t) :
  length (Stage.points this) = 3%nat ->
  (Stage.center (checked this), Stage.area (checked this)) =
  geometry_of (Stage.points this).
Proof.
  unfold checked. intros H.
  destruct (Stage.points this) as [|p1 [|p2 [|p3 [|p4 rest]]]];
    try discriminate.
  reflexivity.
Qed.

Lemma foldl_point_draw (points : list Point.t) (ctx : Context2D) :
  foldl (λ c p, Point.draw p c) ctx points = ctx ++ point_calls points.
Proof.
  revert ctx. induction points as [|p points IH]; intros ctx; simpl.
  - unfold point_calls; simpl. rewrite app_nil_r. reflexivity.
  - rewrite IH. unfold point_calls, Point.draw; simpl.
    rewrite <- app_assoc. reflexivity.
Qed.

Lemma addPoint_result (this : Stage.t) (point : Point.t) :
  Stage.addPoint this point =
  Some (checked
          (Stage.mk (Point.draw point (Stage.ctx this))
             (Stage.width this) (Stage.height this)
             (Stage.points this ++ [point])
             (Stage.center this) (Stage.area this))).
Proof. unfold Stage.addPoint. rewrite check_result. reflexivity. Qed.

Lemma draw_result (this : Stage.t) :
  Stage.draw this =
  Some (checked
          (Stage.mk
             (Stage.ctx this ++
              [clearRect 0 0 (Stage.width this) (Stage.height this)] ++
              point_calls (Stage.points this))
             (Stage.width this) (Stage.height this)
             (Stage.points this)
             (Stage.center this) (Stage.area this))).
Proof.
  unfold Stage.draw. rewrite check_result.
  unfold Stage._clear, Stage.with_ctx; simpl.
  rewrite foldl_point_draw, <- app_assoc. reflexivity.
Qed.

(** ** Stage.draw *)

(** X1.  [draw] keeps the points and the size of the stage.  It assigns
    [center] and [area] from the points exactly when there are three of
    them; with any other number, four included, it leaves both fields as
    they were. *)
Theorem draw_keeps_points_and_resyncs (this : Stage.t) :
  ∃ this',
    Stage.draw this = Some this' /\
    Stage.points this' = Stage.points this /\
    Stage.width this' = Stage.width this /\
    Stage.height this' = Stage.height this /\
    match Stage.points this with
    | [p1; p2; p3] =>
        Stage.center this' = Some (Stage._calculate_center p1 p3) /\
        Stage.area this' =
          Some (Stage._calculateArea_value
                  (Stage._calculateArea_vars p1 p2 p3))
    | _ =>
        Stage.center this' = Stage.center this /\
        Stage.area this' = Stage.area this
    end.
Proof.
  rewrite draw_result. eexists. split; [reflexivity|].
  rewrite checked_points. destruct (checked_size
    (Stage.mk
       (Stage.ctx this ++
        [clearRect 0 0 (Stage.width this) (Stage.height this)] ++
        point_calls (Stage.points this))
       (Stage.width this) (Stage.height this) (Stage.points this)
       (Stage.center this) (Stage.area this))) as [Hw Hh].
  rewrite Hw, Hh. simpl. repeat split.
  unfold checked; simpl.
  destruct (Stage.points this) as [|p1 [|p2 [|p3 [|p4 rest]]]];
    split; reflexivity.
Qed.

(** X2.  A redraw first clears the whole canvas, then draws every point in
    the order of placing, and last, when there are exactly three points,
    the outline through the four corners and the circle; nothing that was
    in the log before is touched. *)
Theorem draw_call_order (this : Stage.t) :
  ∃ this',
    Stage.draw this = Some this' /\
    Stage.ctx this' =
      Stage.ctx this ++
      [clearRect 0 0 (Stage.width this) (Stage.height this)] ++
      point_calls (Stage.points this) ++
      match Stage.points this with
      | [p1; p2; p3] => shape_calls p1 p2 p3
      | _ => []
      end.
Proof.
  rewrite draw_result. eexists. split; [reflexivity|].
  unfold checked; simpl.
  destruct (Stage.points this) as [|p1 [|p2 [|p3 [|p4 rest]]]]; simpl;
    rewrite <- ?app_assoc; simpl; rewrite ?app_nil_r; reflexivity.
Qed.

(** ** Stage.reset *)

(** X3.  Whatever a stage holds (any number of points, any stored centre
    and area), after [reset] three calls of [addPoint] leave exactly the
    three new points with their centre and area, and the log has grown by
    one clearing of the canvas, the three points and the two shapes. *)
Theorem reset_then_place (this : Stage.t) (p1 p2 p3 : Point.t) :
  ∃ this',
    (s ← Stage.addPoint (Stage.reset this) p1;
     s ← Stage.addPoint s p2;
     Stage.addPoint s p3) = Some this' /\
    Stage.points this' = [p1; p2; p3] /\
    Stage.center this' = Some (Stage._calculate_center p1 p3) /\
    Stage.area this' =
      Some (Stage._calculateArea_value (Stage._calculateArea_vars p1 p2 p3)) /\
    Stage.width this' = Stage.width this /\
    Stage.height this' = Stage.height this /\
    Stage.ctx this' =
      Stage.ctx this ++
      [clearRect 0 0 (Stage.width this) (Stage.height this)] ++
      point_calls [p1; p2; p3] ++ shape_calls p1 p2 p3.
Proof.
  rewrite addPoint_result. cbn [mbind option_bind].
  rewrite addPoint_result. cbn [mbind option_bind].
  rewrite addPoint_result.
  eexists. split; [reflexivity|].
  unfold checked; simpl. repeat split.
  unfold Point.draw, point_calls; simpl.
  rewrite <- !app_assoc. reflexivity.
Qed.

(** ** The geometry *)

(** X6.  The stored centre, the midpoint of the first and the third point,
    is also the midpoint of the second point and the fourth corner that
    [_draw] computes: the circle sits where the diagonals cross. *)
Theorem center_is_midpoint_of_other_diagonal (p1 p2 p3 : Point.t) :
  Stage._calculate_center p1 p3 =
  {| XY.x := (Point.x p2 + XY.x (Stage._draw_p4 p1 p2 p3)) / 2;
     XY.y := (Point.y p2 + XY.y (Stage._draw_p4 p1 p2 p3)) / 2 |}.
Proof.
  unfold Stage._calculate_center, Stage._draw_p4; simpl. f_equal; field.
Qed.

(** X7.  Moving the three points by one vector leaves the stored area as
    it is and moves the stored centre and the fourth corner by that
    vector. *)
Theorem geometry_translation (this : Stage.t) (u v : R) (p1 p2 p3 : Point.t) :
  computeArea this (translate u v p1) (translate u v p2) (translate u v p3) =
    computeArea this p1 p2 p3 /\
  Stage._calculate_center (translate u v p1) (translate u v p3) =
    {| XY.x := XY.x (Stage._calculate_center p1 p3) + u;
       XY.y := XY.y (Stage._calculate_center p1 p3) + v |} /\
  Stage._draw_p4 (translate u v p1) (translate u v p2) (translate u v p3) =
    {| XY.x := XY.x (Stage._draw_p4 p1 p2 p3) + u;
       XY.y := XY.y (Stage._draw_p4 p1 p2 p3) + v |}.
Proof.
  split; [|split].
  - rewrite !computeArea_value, !calculateArea_value_cross.
    do 2 f_equal. unfold cross_product, side, position, translate; simpl.
    ring.
  - unfold Stage._calculate_center, translate; simpl. f_equal; field.
  - unfold Stage._draw_p4, translate; simpl. f_equal; ring.
Qed.

(** ** Point *)

(** X8.  Two points as the application creates them (radius 5.5) have a
    position that both contain exactly when they are at most 11 apart on
    each axis. *)
Theorem squares_of_new_points_overlap (x1 y1 x2 y2 : R) :
  (∃ x y, Point.contains (Point.new x1 y1) x y = true /\
          Point.contains (Point.new x2 y2) x y = true) <->
  Rabs (x2 - x1) <= 11 /\ Rabs (y2 - y1) <= 11.
Proof.
  assert (Habs : ∀ d r, Rabs d <= r <-> - r <= d <= r).
  { intros d r. unfold Rabs. destruct (Rcase_abs d); lra. }
  rewrite !Habs. split.
  - intros (x & y & H1 & H2).
    apply contains_true in H1. apply contains_true in H2.
    simpl in H1, H2. lra.
  - intros [Hx Hy]. exists ((x1 + x2) / 2), ((y1 + y2) / 2).
    split; apply contains_true; simpl; lra.
Qed.

(** ** What every reachable state satisfies *)

Lemma init_inv (canvas : Canvas.t) : app_inv (App._init canvas).
Proof. unfold app_inv; simpl. repeat split; lia. Qed.

Lemma reset_inv (app : App.t) : app_inv app -> app_inv (App._reset app).
Proof.
  intros (_ & _ & _ & Hr). apply reset_drag_ready in Hr.
  unfold app_inv. split; [simpl; lia|]. split; [reflexivity|].
  split; [reflexivity|exact Hr].
Qed.

Ltac inv_done :=
  eexists; split; [reflexivity|];
  unfold app_inv, drag_ready in *; simpl in *;
  repeat split; try lia; try tauto; eauto.

Lemma dispatch_inv (app : App.t) ev :
  app_inv app -> ∃ app', App.dispatch app ev = Some app' /\ app_inv app'.
Proof.
  intros (Hlen & Hls & Hgeo & Hr).
  destruct app as [cv [c w h ps ce ar] pt dx dy ls]; simpl in *.
  subst ls.
  destruct ps as [|p1 [|p2 [|p3 [|p4 rest]]]]; simpl in Hlen; try lia;
    simpl in Hgeo; injection Hgeo as -> ->;
    destruct ev as [[| | |] e]; unfold App.dispatch.
  (* no point yet *)
  - unfold App._addPoint. rewrite addPoint_result; simpl.
    unfold drag_ready in Hr; simpl in Hr.
    destruct pt as [[i|p]|]; inv_done.
  - inv_done.
  - inv_done.
  - inv_done.
  (* one point *)
  - unfold App._addPoint. rewrite addPoint_result; simpl.
    unfold drag_ready in Hr; simpl in Hr.
    destruct pt as [[i|p]|]; inv_done.
  - inv_done.
  - inv_done.
  - inv_done.
  (* two points *)
  - unfold App._addPoint. rewrite addPoint_result; simpl.
    unfold drag_ready in Hr; simpl in Hr.
    destruct pt as [[i|p]|]; inv_done.
  - inv_done.
  - inv_done.
  - inv_done.
  (* three points *)
  - inv_done.
  - rewrite startMove_first_hit.
    destruct (first_hit _ _) as [[i p]|] eqn:Hf.
    + apply first_hit_bound in Hf as [Hi _].
      apply lookup_lt_Some in Hi. simpl in Hi. inv_done.
    + inv_done.
  - inv_done.
  - unfold App._move. unfold drag_ready in Hr; simpl in Hr.
    destruct pt as [[i|p]|].
    + destruct Hr as ([dx' ->] & [dy' ->] & Hi).
      destruct i as [|[|[|i]]]; try lia;
        cbn [App.listeners App.mousemove__move dragging decide
             App.point App.dx App.dy App.stage Stage.points
             mbind option_bind lookup list_lookup];
        simpl decide; cbn [mbind option_bind];
        rewrite draw_result; simpl; inv_done.
    + destruct Hr as ([dx' ->] & [dy' ->] & _).
      cbn [App.listeners App.mousemove__move dragging decide
           App.point App.dx App.dy App.stage mbind option_bind];
      simpl decide; cbn [mbind option_bind].
      rewrite draw_result; simpl. inv_done.
    + inv_done.
Qed.

Lemma handle_inv (app : App.t) (input : Input) :
  app_inv app -> ∃ app', handle app input = Some app' /\ app_inv app'.
Proof.
  intros H. destruct input as [ev|]; simpl.
  - apply dispatch_inv. exact H.
  - eexists. split; [reflexivity|]. apply reset_inv. exact H.
Qed.

Lemma handle_all_inv (app : App.t) (inputs : list Input) :
  app_inv app -> ∃ app', handle_all app inputs = Some app' /\ app_inv app'.
Proof.
  revert app. induction inputs as [|input inputs IH]; intros app H; [eauto|].
  destruct (handle_inv app input H) as (app1 & H1 & Hinv1).
  simpl. rewrite H1. simpl. apply IH. exact Hinv1.
Qed.

(** X9.  Whatever events arrive on the canvas and however often the reset
    button is clicked, every one of them is handled without an exception,
    and the stage never holds more than three points. *)
Theorem reachable_at_most_three_points
    (canvas : Canvas.t) (inputs : list Input) :
  ∃ app,
    handle_all (App._init canvas) inputs = Some app /\
    (length (Stage.points (App.stage app)) ≤ 3)%nat.
Proof.
  destruct (handle_all_inv (App._init canvas) inputs (init_inv canvas))
    as (app & Hrun & Hlen & _).
  exists app. split; assumption.
Qed.

(** X10.  In every state the application reaches, the stored centre and
    area are those of the points as they are now when there are three of
    them, and are [null] when there are fewer: no drag and no reset leaves
    them stale. *)
Theorem reachable_geometry_in_sync
    (canvas : Canvas.t) (inputs : list Input) :
  ∃ app,
    handle_all (App._init canvas) inputs = Some app /\
    match Stage.points (App.stage app) with
    | [p1; p2; p3] =>
        Stage.center (App.stage app) =
          Some (Stage._calculate_center p1 p3) /\
        Stage.area (App.stage app) =
          Some (Stage._calculateArea_value
                  (Stage._calculateArea_vars p1 p2 p3))
    | _ =>
        Stage.center (App.stage app) = None /\
        Stage.area (App.stage app) = None
    end.
Proof.
  destruct (handle_all_inv (App._init canvas) inputs (init_inv canvas))
    as (app & Hrun & _ & _ & Hgeo & _).
  exists app. split; [exact Hrun|].
  destruct (Stage.points (App.stage app)) as [|p1 [|p2 [|p3 [|p4 rest]]]];
    simpl in Hgeo; injection Hgeo as -> ->; split; reflexivity.
Qed.

(** X11.  In every state the application reaches, the handlers attached to
    the canvas follow the number of points: with fewer than three only the
    click handler that places a point, with three only the three drag
    handlers. *)
Theorem reachable_handlers_follow_count
    (canvas : Canvas.t) (inputs : list Input) :
  ∃ app,
    handle_all (App._init canvas) inputs = Some app /\
    ((length (Stage.points (App.stage app)) < 3)%nat /\
       App.listeners app = App.mkListeners true false false false \/
     length (Stage.points (App.stage app)) = 3%nat /\
       App.listeners app = App.mkListeners false true true true).
Proof.
  destruct (handle_all_inv (App._init canvas) inputs (init_inv canvas))
    as (app & Hrun & Hlen & Hls & _).
  exists app. split; [exact Hrun|].
  destruct (decide (length (Stage.points (App.stage app)) = 3%nat)).
  - right. split; assumption.
  - left. split; [lia|assumption].
Qed.

(** X12.  In a reachable state a click on the canvas adds one point of
    radius 5.5 at the canvas-local position of the click (the page position
    less the offset of the canvas) while there are fewer than three points,
    and adds nothing once there are three. *)
Theorem click_places_one_point_until_three (app : App.t) (e : Event) :
  app_inv app ->
  ∃ app',
    App.dispatch app (click, e) = Some app' /\
    Stage.points (App.stage app') =
      if decide (length (Stage.points (App.stage app)) = 3%nat)
      then Stage.points (App.stage app)
      else Stage.points (App.stage app) ++
           [ if Canvas.offsetParent_defined (App.canvas app)
             then Point.new (pageX e - Canvas.offsetLeft (App.canvas app))
                            (pageY e - Canvas.offsetTop (App.canvas app))
             else Point.new (pageX e) (pageY e) ].
Proof.
  intros (Hlen & Hls & _). unfold App.dispatch. rewrite Hls.
  destruct (decide _) as [E|E]; simpl.
  - eexists. split; reflexivity.
  - unfold App._addPoint. rewrite addPoint_result. simpl.
    destruct (decide _); eexists; (split; [reflexivity|]); simpl;
      rewrite checked_points; simpl; unfold App._getCoords;
      destruct (Canvas.offsetParent_defined _); reflexivity.
Qed.

Lemma click_places_one_point_until_three_witness :
  app_inv (App._init canvas0) /\
  ∃ app',
    App.dispatch (App._init canvas0) (click, mkEvent 40 30) = Some app' /\
    Stage.points (App.stage app') =
      if decide (length (Stage.points (App.stage (App._init canvas0)))
                 = 3%nat)
      then Stage.points (App.stage (App._init canvas0))
      else Stage.points (App.stage (App._init canvas0)) ++
           [ if Canvas.offsetParent_defined (App.canvas (App._init canvas0))
             then Point.new
                    (pageX (mkEvent 40 30) -
                     Canvas.offsetLeft (App.canvas (App._init canvas0)))
                    (pageY (mkEvent 40 30) -
                     Canvas.offsetTop (App.canvas (App._init canvas0)))
             else Point.new (pageX (mkEvent 40 30))
                            (pageY (mkEvent 40 30)) ].
Proof.
  assert (H : app_inv (App._init canvas0))
    by (unfold app_inv; simpl; repeat split; lia).
  split; [exact H|].
  exact (click_places_one_point_until_three
           (App._init canvas0) (mkEvent 40 30) H).
Defined.

(** ** Pointer-down, drag and release *)

Lemma first_hit_at (points : list Point.t) (coords : XY.t) i p :
  points !! i = Some p ->
  Point.contains p (XY.x coords) (XY.y coords) = true ->
  (∀ j q, (j < i)%nat -> points !! j = Some q ->
          Point.contains q (XY.x coords) (XY.y coords) = false) ->
  first_hit points coords = Some (i, p).
Proof.
  intros Hi Hc Hbefore. unfold first_hit. apply list_find_Some.
  split; [exact Hi|]. split; [exact Hc|].
  intros j q Hj Hlt Hq. rewrite (Hbefore j q Hlt Hj) in Hq. discriminate.
Qed.

Lemma first_hit_none (points : list Point.t) (coords : XY.t) :
  (∀ p, p ∈ points ->
        Point.contains p (XY.x coords) (XY.y coords) = false) ->
  first_hit points coords = None.
Proof.
  intros H. unfold first_hit. apply list_find_None, Forall_forall.
  intros p Hp Hc. rewrite (H p Hp) in Hc. discriminate.
Qed.

Lemma with_drag_same (app : App.t) :
  App.with_drag app (App.point app) (App.dx app) (App.dy app) = app.
Proof. destruct app; reflexivity. Qed.

(** X13.  A pointer-down takes the point that contains the pointer and was
    placed first among those that do, and records the offset of the pointer
    from its origin; the stage and the handlers are as before. *)
Theorem startMove_takes_first_containing
    (app : App.t) (e : Event) (i : nat) (p : Point.t) :
  let coords := App._getCoords (App.canvas app) e in
  Stage.points (App.stage app) !! i = Some p ->
  Point.contains p (XY.x coords) (XY.y coords) = true ->
  (∀ j q, (j < i)%nat -> Stage.points (App.stage app) !! j = Some q ->
          Point.contains q (XY.x coords) (XY.y coords) = false) ->
  App._startMove app e =
  Some {| App.canvas := App.canvas app;
          App.stage := App.stage app;
          App.point := Some (App.InStage i);
          App.dx := Some (XY.x coords - Point.x p);
          App.dy := Some (XY.y coords - Point.y p);
          App.listeners := App.listeners app |}.
Proof.
  intros coords Hi Hc Hbefore.
  rewrite startMove_first_hit.
  fold coords. rewrite (first_hit_at _ coords i p Hi Hc Hbefore).
  reflexivity.
Qed.

Lemma startMove_takes_first_containing_witness :
  Stage.points (App.stage (square_app canvas0)) !! 1%nat =
    Some (Point.new 10 0) /\
  App._startMove (square_app canvas0) (mkEvent 10 5) =
  Some {| App.canvas := canvas0;
          App.stage := App.stage (square_app canvas0);
          App.point := Some (App.InStage 1);
          App.dx := Some (XY.x (App._getCoords canvas0 (mkEvent 10 5))
                          - Point.x (Point.new 10 0));
          App.dy := Some (XY.y (App._getCoords canvas0 (mkEvent 10 5))
                          - Point.y (Point.new 10 0));
          App.listeners := App.listeners (square_app canvas0) |}.
Proof.
  split; [reflexivity|].
  apply (startMove_takes_first_containing
           (square_app canvas0) (mkEvent 10 5) 1 (Point.new 10 0)).
  - reflexivity.
  - apply contains_true. simpl. lra.
  - intros j q Hj Hq. destruct j as [|j]; [|lia].
    injection Hq as <-. apply not_true_iff_false.
    rewrite contains_true. simpl. lra.
Defined.

(** X14.  A pointer-down that no point contains changes nothing: what was
    held, the recorded offset, the stage and the handlers stay as they
    were. *)
Theorem startMove_miss_changes_nothing (app : App.t) (e : Event) :
  (∀ p, p ∈ Stage.points (App.stage app) ->
        Point.contains p (XY.x (App._getCoords (App.canvas app) e))
                         (XY.y (App._getCoords (App.canvas app) e)) = false) ->
  App._startMove app e = Some app.
Proof.
  intros H. rewrite startMove_first_hit, (first_hit_none _ _ H).
  rewrite with_drag_same. reflexivity.
Qed.

Lemma startMove_miss_changes_nothing_witness :
  App._startMove (square_app canvas0) (mkEvent 100 100) =
  Some (square_app canvas0).
Proof.
  apply (startMove_miss_changes_nothing (square_app canvas0)
           (mkEvent 100 100)).
  intros p Hp. apply not_true_iff_false. rewrite contains_true.
  simpl in Hp. rewrite !elem_of_cons in Hp.
  destruct Hp as [->|[->|[->|Hp]]]; simpl; try lra.
  apply elem_of_nil in Hp. destruct Hp.
Defined.

(** X15.  A pointer-down on a point followed by a pointer-move moves that
    point by exactly the way the pointer went, whatever part of the point
    was grabbed: it keeps its radius and its place in the array, the other
    points stay, the moved point still contains the pointer, and it is
    still held. *)
Theorem drag_follows_pointer
    (app : App.t) (e0 e1 : Event) (i : nat) (p : Point.t) :
  let c0 := App._getCoords (App.canvas app) e0 in
  let c1 := App._getCoords (App.canvas app) e1 in
  let moved :=
    {| Point.x := Point.x p + (XY.x c1 - XY.x c0);
       Point.y := Point.y p + (XY.y c1 - XY.y c0);
       Point.radius := Point.radius p |} in
  Stage.points (App.stage app) !! i = Some p ->
  Point.contains p (XY.x c0) (XY.y c0) = true ->
  (∀ j q, (j < i)%nat -> Stage.points (App.stage app) !! j = Some q ->
          Point.contains q (XY.x c0) (XY.y c0) = false) ->
  ∃ app',
    (app ← App._startMove app e0; App._move app e1) = Some app' /\
    Stage.points (App.stage app') =
      <[i := moved]> (Stage.points (App.stage app)) /\
    Point.contains moved (XY.x c1) (XY.y c1) = true /\
    App.point app' = Some (App.InStage i).
Proof.
  intros c0 c1 moved Hi Hc Hbefore.
  rewrite startMove_first_hit. fold c0.
  rewrite (first_hit_at _ c0 i p Hi Hc Hbefore).
  cbn [mbind option_bind grabbed].
  unfold App._move.
  cbn [App.with_drag App.point App.dx App.dy App.stage App.canvas
       mbind option_bind].
  fold c1. rewrite Hi. cbn [mbind option_bind].
  rewrite draw_result. cbn [mbind option_bind].
  eexists. split; [reflexivity|].
  assert (Hm : Point.mk (XY.x c1 - (XY.x c0 - Point.x p))
                        (XY.y c1 - (XY.y c0 - Point.y p))
                        (Point.radius p) = moved).
  { unfold moved. f_equal; ring. }
  split; [|split].
  - cbn [App.with_stage App.stage]. rewrite checked_points.
    cbn [Stage.points Stage.with_points]. rewrite Hm. reflexivity.
  - apply contains_true in Hc. apply contains_true. unfold moved; simpl. lra.
  - reflexivity.
Qed.

Lemma drag_follows_pointer_witness :
  Stage.points (App.stage (square_app canvas0)) !! 1%nat =
    Some (Point.new 10 0) /\
  ∃ app',
    (app ← App._startMove (square_app canvas0) (mkEvent 12 3);
     App._move app (mkEvent 22 8)) = Some app' /\
    Stage.points (App.stage app') =
      <[1%nat :=
          {| Point.x := Point.x (Point.new 10 0) +
               (XY.x (App._getCoords canvas0 (mkEvent 22 8)) -
                XY.x (App._getCoords canvas0 (mkEvent 12 3)));
             Point.y := Point.y (Point.new 10 0) +
               (XY.y (App._getCoords canvas0 (mkEvent 22 8)) -
                XY.y (App._getCoords canvas0 (mkEvent 12 3)));
             Point.radius := Point.radius (Point.new 10 0) |}]>
        (Stage.points (App.stage (square_app canvas0))) /\
    Point.contains
      {| Point.x := Point.x (Point.new 10 0) +
           (XY.x (App._getCoords canvas0 (mkEvent 22 8)) -
            XY.x (App._getCoords canvas0 (mkEvent 12 3)));
         Point.y := Point.y (Point.new 10 0) +
           (XY.y (App._getCoords canvas0 (mkEvent 22 8)) -
            XY.y (App._getCoords canvas0 (mkEvent 12 3)));
         Point.radius := Point.radius (Point.new 10 0) |}
      (XY.x (App._getCoords canvas0 (mkEvent 22 8)))
      (XY.y (App._getCoords canvas0 (mkEvent 22 8))) = true /\
    App.point app' = Some (App.InStage 1).
Proof.
  split; [reflexivity|].
  apply (drag_follows_pointer
           (square_app canvas0) (mkEvent 12 3) (mkEvent 22 8)
           1 (Point.new 10 0)).
  - reflexivity.
  - apply contains_true. simpl. lra.
  - intros j q Hj Hq. destruct j as [|j]; [|lia].
    injection Hq as <-. apply not_true_iff_false.
    rewrite contains_true. simpl. lra.
Defined.

(** X16.  A pointer-down followed by a pointer-up, whether or not a point
    was hit, leaves the stage and the handlers as they were and nothing
    held; pointer-moves after it do nothing, not even a redraw. *)
Theorem press_release_keeps_stage (app : App.t) (e0 e1 : Event) :
  ∃ app',
    (app ← App._startMove app e0; App._stopMove app e1) = Some app' /\
    App.stage app' = App.stage app /\
    App.listeners app' = App.listeners app /\
    App.canvas app' = App.canvas app /\
    App.point app' = None /\
    ∀ e2, App._move app' e2 = Some app'.
Proof.
  rewrite startMove_first_hit.
  destruct (first_hit _ _) as [[i p]|]; cbn [mbind option_bind grabbed];
    eexists; (split; [reflexivity|]); repeat split.
Qed.

(** X17.  A reset forgets a point that is held.  From any state the
    application reaches, a click on the reset button followed by three
    clicks on the canvas leaves exactly the three new points, and a
    pointer-move after them moves none of them, even when a point was held
    at the time of the reset and never released. *)
Theorem reset_forgets_held_point
    (app : App.t) (x1 y1 x2 y2 x3 y3 : R) (e : Event) :
  app_inv app ->
  ∃ app',
    handle_all app
      [ ResetButton;
        OnCanvas (event_at (App.canvas app) click x1 y1);
        OnCanvas (event_at (App.canvas app) click x2 y2);
        OnCanvas (event_at (App.canvas app) click x3 y3);
        OnCanvas (mousemove, e) ] = Some app' /\
    Stage.points (App.stage app') =
      [Point.new x1 y1; Point.new x2 y2; Point.new x3 y3].
Proof.
  intros Hinv. apply reset_inv in Hinv.
  destruct Hinv as (_ & _ & _ & Hr).
  unfold handle_all, handle. cbn [mbind option_bind].
  set (r := App._reset app) in *.
  assert (Hcv : App.canvas r = App.canvas app) by reflexivity.
  rewrite <- Hcv.
  rewrite (click_placing r x1 y1 _ eq_refl (addPoint_result _ _))
    by (rewrite checked_points; simpl; lia).
  cbn [mbind option_bind].
  rewrite (click_placing (App.with_stage r _) x2 y2 _ eq_refl
             (addPoint_result _ _))
    by (rewrite !checked_points; simpl; lia).
  cbn [mbind option_bind].
  rewrite (click_third (App.with_stage (App.with_stage r _) _) x3 y3 _
             eq_refl (addPoint_result _ _))
    by (rewrite !checked_points; reflexivity).
  cbn [mbind option_bind].
  unfold App.dispatch, App._move.
  cbn [App.with_listeners App.with_stage App.listeners App.mousemove__move
       App.point App.dx App.dy App.stage App.canvas].
  unfold drag_ready in Hr.
  assert (Hpt : App.point r = None \/ ∃ p, App.point r = Some (App.Detached p)).
  { unfold r, App._reset; simpl.
    destruct (App.point app) as [[i|p]|]; eauto.
    destruct (_ !! i); simpl; eauto. }
  destruct Hpt as [Hpt|[p Hpt]]; rewrite Hpt in *.
  - eexists. split; [reflexivity|].
    cbn [App.stage]. rewrite !checked_points. reflexivity.
  - destruct Hr as ([dx Hx] & [dy Hy] & _). rewrite Hx, Hy.
    cbn [mbind option_bind]. rewrite draw_result. cbn [mbind option_bind].
    eexists. split; [reflexivity|].
    cbn [App.with_stage App.stage]. rewrite !checked_points. reflexivity.
Qed.

Lemma reset_forgets_held_point_witness :
  app_inv (App.with_drag (square_app canvas0)
             (Some (App.InStage 1)) (Some 0) (Some 0)) /\
  ∃ app',
    handle_all
      (App.with_drag (square_app canvas0)
         (Some (App.InStage 1)) (Some 0) (Some 0))
      [ ResetButton;
        OnCanvas (event_at canvas0 click 1 2);
        OnCanvas (event_at canvas0 click 30 4);
        OnCanvas (event_at canvas0 click 50 60);
        OnCanvas (mousemove, mkEvent 7 7) ] = Some app' /\
    Stage.points (App.stage app') =
      [Point.new 1 2; Point.new 30 4; Point.new 50 60].
Proof.
  assert (H : app_inv (App.with_drag (square_app canvas0)
                         (Some (App.InStage 1)) (Some 0) (Some 0))).
  { unfold app_inv, drag_ready; simpl.
    rewrite square_area, square_center. repeat split; eauto; lia. }
  split; [exact H|].
  exact (reset_forgets_held_point
           (App.with_drag (square_app canvas0)
              (Some (App.InStage 1)) (Some 0) (Some 0))
           1 2 30 4 50 60 (mkEvent 7 7) H).
Defined.

(** ** The fourth corner, again *)

(** X18.  Completing the parallelogram is its own inverse: with the fourth
    corner put in the place of the second point, the corner computed is the
    second point, and the stored area is the same. *)
Theorem fourth_corner_round_trip (this : Stage.t) (p1 p2 p3 : Point.t) :
  let p4 := Point.new (XY.x (Stage._draw_p4 p1 p2 p3))
                      (XY.y (Stage._draw_p4 p1 p2 p3)) in
  Stage._draw_p4 p1 p4 p3 = position p2 /\
  computeArea this p1 p4 p3 = computeArea this p1 p2 p3.
Proof.
  intros p4. split.
  - unfold Stage._draw_p4, position, p4; simpl. f_equal; ring.
  - rewrite !computeArea_value, !calculateArea_value_cross. f_equal.
    rewrite <- Rabs_Ropp. f_equal.
    unfold cross_product, side, position, p4, Stage._draw_p4; simpl. ring.
Qed.

(** X19.  The fourth corner and the centre do not depend on which of the
    two outer points was placed first: with the first and the third point
    exchanged they are the same. *)
Theorem corner_and_center_swap (p1 p2 p3 : Point.t) :
  Stage._draw_p4 p3 p2 p1 = Stage._draw_p4 p1 p2 p3 /\
  Stage._calculate_center p3 p1 = Stage._calculate_center p1 p3.
Proof.
  unfold Stage._draw_p4, Stage._calculate_center.
  split; f_equal; field.
Qed.

(** ** The area in binary64 *)

(** In exact arithmetic the points (2,3), (0,0), (4,6), which lie on one
    line, have the area 0. *)
Lemma collinear_area_in_exact_reals :
  Stage._calculateArea_value
    (Stage._calculateArea_vars
       (Point.new 2 3) (Point.new 0 0) (Point.new 4 6)) = 0.
Proof.
  rewrite calculateArea_value_cross.
  unfold cross_product, side, position; simpl.
  replace ((2 - 0) * (6 - 0) - (3 - 0) * (4 - 0)) with 0 by lra.
  apply Rabs_R0.
Qed.

(** C8.  The area is not always a number that is at least 0.  Clicks at
    (2,3), (0,0) and (4,6) give two sides with a length, so [Math.acos] is
    called, and it is called on the quotient 26 / (sqrt 13 * sqrt 52), which
    in binary64 is 1 + 2^-52, greater than 1: there [Math.acos] is NaN, and
    with it the angle, the stored area and the radius of the circle. *)
Theorem collinear_clicks_leave_acos_domain :
  let v := Binary64._calculateArea_vars
             (Binary64.clicked 2 3) (Binary64.clicked 0 0)
             (Binary64.clicked 4 6) in
  Binary64.calls_acos v = true /\
  Binary64.acos_argument v = S754_finite false 4503599627370497 (-52) /\
  Binary64.ltb (Binary64.of_Z 1) (Binary64.acos_argument v) = true /\
  Binary64.acos_is_NaN (Binary64.acos_argument v) = true.
Proof. vm_compute. repeat split. Qed.
